(** * M5Docs helper: the path and URL resolution logic of [src/extension.ts]

    A shallow embedding of the pure functions of the extension
    ([toPosix], [parseDocInfo], [buildTargetFileUri], [buildUrl],
    [parseUrlToLangAndRel], [getLanIPv4Prefer192], [patchBaseHost],
    [pickDocsWorkspace]) and the properties the specification states
    about them.

    Strings are [string]: sequences of bytes.  The source works on UTF-16
    code units; every character the code inspects (slash, backslash, dot)
    is ASCII, and an ASCII byte never occurs inside a multi-byte UTF-8
    sequence, so splitting, searching and slicing agree on both views. *)

From Stdlib Require Import String Ascii List ZArith Lia Bool.
Import ListNotations.

Open Scope string_scope.
Open Scope Z_scope.

(** ** The JavaScript string and array primitives the extension calls *)

Module Js.

(** [s.length] *)
Definition len (s : string) : Z := Z.of_nat (String.length s).

(** The relative index of [String.prototype.slice]: a negative index
    counts from the end, and everything is clamped to [0, len]. *)
Definition rel_index (n i : Z) : Z :=
  if i <? 0 then Z.max (n + i) 0 else Z.min i n.

(** [s.slice(a, b)] *)
Definition slice (s : string) (a b : Z) : string :=
  let from := rel_index (len s) a in
  let to := rel_index (len s) b in
  substring (Z.to_nat from) (Z.to_nat (to - from)) s.

(** [s.startsWith(p)] *)
Definition startsWith (s p : string) : bool := prefix p s.

(** [s.endsWith(suf)] *)
Fixpoint endsWith (s suf : string) : bool :=
  match s with
  | EmptyString => String.eqb suf ""
  | String _ r => String.eqb s suf || endsWith r suf
  end.

(** [s.split(sep)] for a one-character separator: never the empty
    array, [''.split('/')] is [['']]. *)
Fixpoint split (sep : ascii) (s : string) : list string :=
  match s with
  | EmptyString => [""]
  | String c r =>
      if Ascii.eqb c sep then "" :: split sep r
      else match split sep r with
           | h :: t => String c h :: t
           | [] => [String c ""]
           end
  end.

(** [a.join(sep)] *)
Fixpoint join (sep : string) (a : list string) : string :=
  match a with
  | [] => ""
  | [x] => x
  | x :: r => x ++ sep ++ join sep r
  end.

(** [a.includes(x)], where [x] may be [undefined] (an index out of range) *)
Definition includes (a : list string) (x : option string) : bool :=
  match x with
  | Some v => existsb (String.eqb v) a
  | None => false
  end.

(** Position of the last element equal to [x], if any. *)
Fixpoint last_pos (x : string) (a : list string) : option nat :=
  match a with
  | [] => None
  | y :: r =>
      match last_pos x r with
      | Some i => Some (S i)
      | None => if String.eqb y x then Some O else None
      end
  end.

(** [a.lastIndexOf(x)]: [-1] when absent. *)
Definition lastIndexOf (a : list string) (x : string) : Z :=
  match last_pos x a with
  | Some i => Z.of_nat i
  | None => -1
  end.

(** [a[i]]: [undefined] out of range. *)
Definition at_index (a : list string) (i : Z) : option string :=
  if i <? 0 then None else nth_error a (Z.to_nat i).

(** [a.slice(i)] for [0 <= i]. *)
Definition slice_from (a : list string) (i : Z) : list string :=
  skipn (Z.to_nat i) a.

(** Start of the last occurrence of [needle] in [s], if any. *)
Fixpoint last_occurrence (needle s : string) : option nat :=
  match s with
  | EmptyString => if String.eqb needle "" then Some O else None
  | String _ r =>
      match last_occurrence needle r with
      | Some i => Some (S i)
      | None => if prefix needle s then Some O else None
      end
  end.

(** [s.lastIndexOf(needle)]: [-1] when absent. *)
Definition strLastIndexOf (s needle : string) : Z :=
  match last_occurrence needle s with
  | Some i => Z.of_nat i
  | None => -1
  end.

(** [s.replace(/\/+$/, '')]: drop every trailing slash. *)
Fixpoint stripTrailingSlashes (s : string) : string :=
  match s with
  | EmptyString => ""
  | String c r =>
      let r' := stripTrailingSlashes r in
      if Ascii.eqb c "/" && String.eqb r' "" then "" else String c r'
  end.

(** [s.replace(/^\/+/, '')]: drop every leading slash. *)
Fixpoint stripLeadingSlashes (s : string) : string :=
  match s with
  | String c r => if Ascii.eqb c "/" then stripLeadingSlashes r else s
  | EmptyString => ""
  end.

(** [s.replace(/suf$/, '')] for a literal [suf]: the one match of the
    anchored pattern is the suffix itself. *)
Fixpoint dropSuffix (suf s : string) : string :=
  match s with
  | EmptyString => ""
  | String c r => if String.eqb s suf then "" else String c (dropSuffix suf r)
  end.

(** [a.filter(Boolean)] on strings: the empty string is the only falsy one. *)
Definition filterBoolean (a : list string) : list string :=
  filter (fun s => negb (String.eqb s "")) a.

End Js.

(** ** [path.posix.extname] of Node.js

    The backwards scan of Node's [lib/path.js], with its five loop
    variables.  [ext_loop p n st] runs the loop body for
    [i = n-1, n-2, ..., 0]; [None] after the body is the [break]. *)

Module NodePath.

Record scan := {
  startDot : Z;
  startPart : Z;
  end_ : Z;
  matchedSlash : bool;
  preDotState : Z
}.

Definition scan0 : scan :=
  {| startDot := -1; startPart := 0; end_ := -1;
     matchedSlash := true; preDotState := 0 |}.

(** One iteration at index [i] on character [code]; [inl] is [break]. *)
Definition ext_step (i : Z) (code : ascii) (st : scan) : scan + scan :=
  if Ascii.eqb code "/" then
    if negb (matchedSlash st) then
      inl {| startDot := startDot st; startPart := i + 1; end_ := end_ st;
             matchedSlash := matchedSlash st; preDotState := preDotState st |}
    else inr st
  else
    let st1 :=
      if end_ st =? -1 then
        {| startDot := startDot st; startPart := startPart st; end_ := i + 1;
           matchedSlash := false; preDotState := preDotState st |}
      else st in
    if Ascii.eqb code "." then
      if startDot st1 =? -1 then
        inr {| startDot := i; startPart := startPart st1; end_ := end_ st1;
               matchedSlash := matchedSlash st1; preDotState := preDotState st1 |}
      else if negb (preDotState st1 =? 1) then
        inr {| startDot := startDot st1; startPart := startPart st1; end_ := end_ st1;
               matchedSlash := matchedSlash st1; preDotState := 1 |}
      else inr st1
    else if negb (startDot st1 =? -1) then
      inr {| startDot := startDot st1; startPart := startPart st1; end_ := end_ st1;
             matchedSlash := matchedSlash st1; preDotState := -1 |}
    else inr st1.

Fixpoint ext_loop (p : string) (n : nat) (st : scan) : scan :=
  match n with
  | O => st
  | S i =>
      match String.get i p with
      | None => st
      | Some code =>
          match ext_step (Z.of_nat i) code st with
          | inl st' => st'
          | inr st' => ext_loop p i st'
          end
      end
  end.

Definition extname (p : string) : string :=
  let st := ext_loop p (String.length p) scan0 in
  if (startDot st =? -1) || (end_ st =? -1) || (preDotState st =? 0)
     || ((preDotState st =? 1) && (startDot st =? end_ st - 1)
         && (startDot st =? startPart st + 1))
  then ""
  else Js.slice p (startDot st) (end_ st).

End NodePath.

(** ** The WHATWG URL record, as the [URL] class exposes it

    [protocol] keeps its colon ("http:"), [port] is empty for the scheme's
    default port, [host] is [None] for a URL without authority, [search]
    and [hash] keep their leading [?] and [#].  [opaquePath] marks the
    URLs (such as [mailto:]) whose path is not a list of segments. *)

Record URL := {
  protocol : string;
  username : string;
  password : string;
  host : option string;
  port : string;
  pathname : string;
  search : string;
  hash : string;
  opaquePath : bool
}.

(** The [hostname] getter: the empty string for a null host. *)
Definition hostname (u : URL) : string :=
  match host u with Some h => h | None => "" end.

(** The [hostname] setter.  [parse_host v] is the outcome of the setter's
    host parsing of [v]: [None] when the value is refused and the URL is
    left as it was, [Some h] for the host it stores.  A URL with an opaque
    path ignores the setter. *)
Definition set_hostname (parse_host : string -> option string) (u : URL) (v : string) : URL :=
  if opaquePath u then u
  else match parse_host v with
       | None => u
       | Some h =>
           {| protocol := protocol u; username := username u; password := password u;
              host := Some h; port := port u; pathname := pathname u;
              search := search u; hash := hash u; opaquePath := opaquePath u |}
       end.

(** The [user:password@] part of a serialized URL. *)
Definition credentials (u : URL) : string :=
  if String.eqb (username u) "" && String.eqb (password u) "" then ""
  else username u ++ (if String.eqb (password u) "" then "" else ":" ++ password u) ++ "@".

(** The [:port] part of a serialized URL. *)
Definition portSuffix (u : URL) : string :=
  if String.eqb (port u) "" then "" else ":" ++ port u.

(** [u.toString()]: the URL serializer. *)
Definition URL_toString (u : URL) : string :=
  protocol u ++
  match host u with
  | Some h => "//" ++ credentials u ++ h ++ portSuffix u
  | None =>
      if negb (opaquePath u) && Js.startsWith (pathname u) "//" then "/." else ""
  end ++ pathname u ++ search u ++ hash u.

(** ** [src/extension.ts] *)

Definition Lang := string.

Record DocInfo := {
  lang : Lang;
  relPathWithExt : string;
  relPathNoExt : string;
  staticDir : string
}.

(** [p.replace(/\\/g, '/')] *)
Fixpoint toPosix (p : string) : string :=
  match p with
  | EmptyString => ""
  | String c r => String (if Ascii.eqb c "\" then "/"%char else c) (toPosix r)
  end.

(** One entry of [os.networkInterfaces()]. *)
Record NetworkInterfaceInfo := {
  address : string;
  family : string;
  internal : bool
}.

(** The inner loop of [getLanIPv4Prefer192] over one interface's
    addresses: [inl ip] is the early [return ip], [inr fb] the fallbacks
    collected so far. *)
Fixpoint scanAddrs (addrs : list NetworkInterfaceInfo) (fallbacks : list string)
  : string + list string :=
  match addrs with
  | [] => inr fallbacks
  | addr :: rest =>
      if String.eqb (family addr) "IPv4" && negb (internal addr) then
        let ip := address addr in
        if Js.startsWith ip "192.168." then inl ip
        else scanAddrs rest (fallbacks ++ [ip])
      else scanAddrs rest fallbacks
  end.

(** The outer loop over [Object.keys(ifs)]; a key without a list counts
    as the empty list ([ifs[name] || []]). *)
Fixpoint scanIfs (ifs : list (string * option (list NetworkInterfaceInfo)))
  (fallbacks : list string) : string + list string :=
  match ifs with
  | [] => inr fallbacks
  | (_, addrs) :: rest =>
      match scanAddrs (match addrs with Some l => l | None => [] end) fallbacks with
      | inl ip => inl ip
      | inr fb => scanIfs rest fb
      end
  end.

(** [getLanIPv4Prefer192], with the result of [os.networkInterfaces()]
    (in key order) as its argument. *)
Definition getLanIPv4Prefer192 (ifs : list (string * option (list NetworkInterfaceInfo)))
  : option string :=
  match scanIfs ifs [] with
  | inl ip => Some ip
  | inr fallbacks => nth_error fallbacks 0
  end.

(** A string or [null] used as a condition: [null] and [''] are falsy. *)
Definition truthy (s : option string) : bool :=
  match s with
  | Some v => negb (String.eqb v "")
  | None => false
  end.

(** [patchBaseHost].  [new_URL s] is the platform's URL constructor, [None]
    when it throws; the [catch] returns [base]. *)
Definition patchBaseHost (parse_host : string -> option string)
  (new_URL : string -> option URL) (base : string) (lan : option string) : string :=
  match new_URL base with
  | None => base
  | Some u =>
      let u' :=
        match lan with
        | Some l =>
            if truthy lan
               && (String.eqb (hostname u) "127.0.0.1" || String.eqb (hostname u) "localhost")
            then set_hostname parse_host u l
            else u
        | None => u
        end in
      Js.stripTrailingSlashes (URL_toString u')
  end.

(** [parseDocInfo], on [uri.fsPath]. *)
Definition parseDocInfo (fsPath : string) (languages : list Lang) (staticDir : string)
  (treatReadmeAsIndex : bool) : option DocInfo :=
  let fsPathPosix := toPosix fsPath in
  let parts := Js.split "/" fsPathPosix in
  let staticIdx := Js.lastIndexOf parts staticDir in
  if staticIdx <? 0 then None
  else
    let lang := Js.at_index parts (staticIdx + 1) in
    if negb (Js.includes languages lang) then None
    else
      let relParts := Js.slice_from parts (staticIdx + 2) in
      if Z.of_nat (List.length relParts) =? 0 then None
      else
        let relPathWithExt := Js.join "/" relParts in
        let ext := NodePath.extname relPathWithExt in
        let noExt := Js.slice relPathWithExt 0 (Js.len relPathWithExt - Js.len ext) in
        let relPathNoExt :=
          if treatReadmeAsIndex && Js.endsWith noExt "/README"
          then Js.dropSuffix "/README" noExt
          else noExt in
        match lang with
        | Some lang =>
            Some {| lang := lang; relPathWithExt := relPathWithExt;
                    relPathNoExt := relPathNoExt; staticDir := staticDir |}
        | None => None
        end.

(** [buildTargetFileUri], on [sourceUri.fsPath]; [None] is the thrown
    error, and the string returned is the one handed to [vscode.Uri.file]. *)
Definition buildTargetFileUri (fsPath : string) (targetLang : Lang) (info : DocInfo)
  : option string :=
  let fsPathPosix := toPosix fsPath in
  let needle := "/" ++ staticDir info ++ "/" ++ lang info ++ "/" ++ relPathWithExt info in
  let idx := Js.strLastIndexOf fsPathPosix needle in
  if idx <? 0 then None
  else
    let root := Js.slice fsPathPosix 0 idx in
    Some (root ++ "/" ++ staticDir info ++ "/" ++ targetLang ++ "/" ++ relPathWithExt info).

(** [buildUrl]: the string handed to [vscode.Uri.parse]. *)
Definition buildUrl (base : string) (lang : Lang) (relPathNoExt : string) : string :=
  let baseTrim := Js.stripTrailingSlashes base in
  let pathPart := Js.stripLeadingSlashes relPathNoExt in
  baseTrim ++ "/" ++ lang ++ "/" ++ pathPart.

Record WorkspaceFolder := {
  name : string;
  uri : string
}.

(** What an [async] function settles to: a value or a rejection. *)
Inductive outcome (A : Type) : Type :=
| Returns (a : A)
| Throws.
Arguments Returns {A} a.
Arguments Throws {A}.

(** [pickDocsWorkspace].  [folders] is [vscode.workspace.workspaceFolders
    ?? []]; [joinPath] and [exists_] are [vscode.Uri.joinPath] and the
    [exists] helper (a [stat] that succeeds).  With no configured
    language [languages[0]] is [undefined], which [Uri.joinPath] rejects
    with a type error as soon as the probe of the first folder is built. *)
Definition pickDocsWorkspace (joinPath : string -> list string -> string)
  (exists_ : string -> bool) (folders : list WorkspaceFolder)
  (staticDir : string) (languages : list Lang) (preferredName : option string)
  : outcome (option WorkspaceFolder) :=
  if Z.of_nat (List.length folders) =? 0 then Returns None
  else
    let byName :=
      if truthy preferredName then
        find (fun f => String.eqb (name f) (match preferredName with Some n => n | None => "" end))
             folders
      else None in
    match byName with
    | Some found => Returns (Some found)
    | None =>
        match nth_error languages 0 with
        | None => Throws
        | Some lang0 =>
            match find (fun f => exists_ (joinPath (uri f) [staticDir; lang0])) folders with
            | Some f => Returns (Some f)
            | None => Returns (nth_error folders 0)
            end
        end
    end.

(** [parseUrlToLangAndRel]; [None] is [null], also from the [catch]. *)
Definition parseUrlToLangAndRel (new_URL : string -> option URL) (urlStr : string)
  (languages : list Lang) : option (Lang * string) :=
  match new_URL urlStr with
  | None => None
  | Some u =>
      let segs := Js.filterBoolean (Js.split "/" (pathname u)) in
      if Z.of_nat (List.length segs) <? 2 then None
      else
        let lang := Js.at_index segs 0 in
        if negb (Js.includes languages lang) then None
        else
          let relNoExt := Js.join "/" (Js.slice_from segs 1) in
          match lang with
          | Some lang => Some (lang, relNoExt)
          | None => None
          end
  end.

(** ** A reference instance of the platform's URL constructor

    The theorems below hold for any URL constructor.  To run the code on
    the specification's examples, [UrlRef.new_URL] implements the WHATWG
    parser on a fragment where it is easy to follow by hand: a lower-case
    [http://] or [https://] scheme, a host that is a lower-case domain
    name or a dotted quad in canonical form, an optional decimal port,
    and a path of unreserved characters without dot segments, query or
    fragment.  There the parser copies host and path unchanged, drops the
    scheme's default port and gives the empty path as [/].  It answers
    [None] on every other string, valid or not. *)

Module UrlRef.

Definition code (c : ascii) : Z := Z.of_nat (nat_of_ascii c).
Definition is_digit (c : ascii) : bool := (48 <=? code c) && (code c <=? 57).
Definition is_lower (c : ascii) : bool := (97 <=? code c) && (code c <=? 122).
Definition is_upper (c : ascii) : bool := (65 <=? code c) && (code c <=? 90).

Fixpoint all_chars (ok : ascii -> bool) (s : string) : bool :=
  match s with
  | EmptyString => true
  | String c r => ok c && all_chars ok r
  end.

(** The decimal value of a string of digits. *)
Fixpoint decimal (acc : Z) (s : string) : Z :=
  match s with
  | EmptyString => acc
  | String c r => decimal (10 * acc + (code c - 48)) r
  end.

(** A decimal number without sign or leading zero, at most [bound]. *)
Definition canonical_number (bound : Z) (s : string) : bool :=
  negb (String.eqb s "") && all_chars is_digit s
  && (String.eqb s "0" || negb (prefix "0" s))
  && (Js.len s <=? 5) && (decimal 0 s <=? bound).

Definition is_ipv4 (h : string) : bool :=
  let parts := Js.split "." h in
  (Z.of_nat (List.length parts) =? 4) && forallb (canonical_number 255) parts.

Definition label_char (c : ascii) : bool :=
  is_lower c || is_digit c || Ascii.eqb c "-".

Definition is_label (l : string) : bool :=
  negb (String.eqb l "") && all_chars label_char l && negb (prefix "xn--" l).

Definition is_domain (h : string) : bool :=
  let labels := Js.split "." h in
  forallb is_label labels
  && match last labels "" with
     | String c _ => is_lower c
     | EmptyString => false
     end.

(** The host parser, on hosts that are kept as they are. *)
Definition parse_host (h : string) : option string :=
  if is_ipv4 h || is_domain h then Some h else None.

Definition path_char (c : ascii) : bool :=
  is_lower c || is_upper c || is_digit c
  || Ascii.eqb c "/" || Ascii.eqb c "." || Ascii.eqb c "-"
  || Ascii.eqb c "_" || Ascii.eqb c "~".

Definition dot_segment (seg : string) : bool :=
  String.eqb seg "." || String.eqb seg "..".

(** The input up to the first [stop] character, and the rest from it on. *)
Fixpoint take_until (stop : ascii -> bool) (s : string) : string * string :=
  match s with
  | EmptyString => ("", "")
  | String c r =>
      if stop c then ("", s)
      else let (a, b) := take_until stop r in (String c a, b)
  end.

Definition after_scheme (scheme defaultPort rest : string) : option URL :=
  let (authority, path) := take_until (fun c => Ascii.eqb c "/") rest in
  let (h, portPart) := take_until (fun c => Ascii.eqb c ":") authority in
  let p := Js.slice portPart 1 (Js.len portPart) in
  match parse_host h with
  | None => None
  | Some h' =>
      if (String.eqb portPart "" || canonical_number 65535 p)
         && all_chars path_char path
         && negb (existsb dot_segment (Js.split "/" path))
      then Some {| protocol := scheme; username := ""; password := "";
                   host := Some h';
                   port := if String.eqb p defaultPort then "" else p;
                   pathname := if String.eqb path "" then "/" else path;
                   search := ""; hash := ""; opaquePath := false |}
      else None
  end.

Definition new_URL (s : string) : option URL :=
  if prefix "http://" s then after_scheme "http:" "80" (Js.slice s 7 (Js.len s))
  else if prefix "https://" s then after_scheme "https:" "443" (Js.slice s 8 (Js.len s))
  else None.

End UrlRef.

(** The default configuration of the extension ([activate]). *)
Definition langs3 : list Lang := ["zh_CN"; "en"; "ja"].

(** [has_char c s]: the character [c] occurs in [s]. *)
Fixpoint has_char (c : ascii) (s : string) : bool :=
  match s with
  | EmptyString => false
  | String d r => Ascii.eqb d c || has_char c r
  end.

(** A path segment: a name without slash. *)
Definition segment (s : string) : Prop := has_char "/" s = false.

(** A plain file or directory name: neither slash nor backslash in it. *)
Definition plain (s : string) : Prop :=
  has_char "/" s = false /\ has_char "\" s = false.

(** The non-empty segments of a URL's path. *)
Definition pathSegments (u : URL) : list string :=
  Js.filterBoolean (Js.split "/" (pathname u)).

(** The specification's wording of a path and its non-empty segments,
    stated without the code's [split] and [filter]:
    [nonEmptySegments p segs] says that the path [p] reads as the names
    [segs], in order, each of them a non-empty string without slash,
    with slashes and nothing else before, between and after them. *)
Inductive nonEmptySegments : string -> list string -> Prop :=
| path_ends : nonEmptySegments "" []
| path_slash (p : string) (segs : list string) :
    nonEmptySegments p segs -> nonEmptySegments (String "/" p) segs
| path_last (s : string) :
    s <> "" -> segment s -> nonEmptySegments s [s]
| path_name (s p : string) (segs : list string) :
    s <> "" -> segment s -> nonEmptySegments p segs ->
    nonEmptySegments (s ++ String "/" p) (s :: segs).

(** [f] is the first element of [l], in order, that satisfies [P]. *)
Definition first_such {A : Type} (P : A -> bool) (l : list A) (f : A) : Prop :=
  exists before after,
    l = (before ++ f :: after)%list /\ P f = true /\ forall g, In g before -> P g = false.

(** The addresses [getLanIPv4Prefer192] considers: the non-internal IPv4
    addresses of all interfaces, in enumeration order. *)
Definition eligible (addr : NetworkInterfaceInfo) : bool :=
  String.eqb (family addr) "IPv4" && negb (internal addr).

Definition candidates (ifs : list (string * option (list NetworkInterfaceInfo))) : list string :=
  flat_map (fun entry => map address (filter eligible
                           (match snd entry with Some l => l | None => [] end))) ifs.

Definition in192 (ip : string) : bool := Js.startsWith ip "192.168.".

(** The specification's selection policy on the candidate list: an
    address in 192.168.* if there is one, otherwise the first candidate,
    otherwise none. *)
Definition lanPolicy (ips : list string) : option string :=
  match find in192 ips with
  | Some ip => Some ip
  | None => nth_error ips 0
  end.

(** The host of [u] is a loopback name. *)
Definition loopback (u : URL) : Prop :=
  hostname u = "127.0.0.1" \/ hostname u = "localhost".

(** The folder is called [n]. *)
Definition named (n : string) (f : WorkspaceFolder) : bool := String.eqb (name f) n.

(** The folder holds [staticDir/l0]: the probe of [pickDocsWorkspace]. *)
Definition looksLikeDocs (joinPath : string -> list string -> string)
  (exists_ : string -> bool) (staticDir : string) (l0 : Lang) (f : WorkspaceFolder) : bool :=
  exists_ (joinPath (uri f) [staticDir; l0]).

(** No folder answers to the preferred name: there is no usable hint
    (none, or the empty string), or no folder is called that. *)
Definition noNameMatch (preferredName : option string) (folders : list WorkspaceFolder) : Prop :=
  truthy preferredName = false
  \/ exists n, preferredName = Some n /\ forall f, In f folders -> named n f = false.

(** A relative path with its extension stripped, as [parseDocInfo]
    computes [noExt]. *)
Definition stripExt (rel : string) : string :=
  Js.slice rel 0 (Js.len rel - Js.len (NodePath.extname rel)).

(** Two notions for reasoning about the scan of [NodePath.extname].
    [shifted k st] is the state [st] with its recorded positions moved
    [k] characters to the right, as when the scanned name sits behind a
    prefix of [k] characters.  [scanning len n st] says what the state
    can be when the characters at [n .. len-1] of a name without slash
    have been seen: nothing yet, or the end of the name marked and the
    dot, if one was seen, recorded before that end. *)
Definition shifted (k : Z) (st : NodePath.scan) : NodePath.scan :=
  {| NodePath.startDot := if NodePath.startDot st =? -1 then -1 else NodePath.startDot st + k;
     NodePath.startPart := NodePath.startPart st;
     NodePath.end_ := if NodePath.end_ st =? -1 then -1 else NodePath.end_ st + k;
     NodePath.matchedSlash := NodePath.matchedSlash st;
     NodePath.preDotState := NodePath.preDotState st |}.

Definition scanning (len n : Z) (st : NodePath.scan) : Prop :=
  NodePath.startPart st = 0
  /\ ((NodePath.end_ st = -1 /\ NodePath.startDot st = -1 /\ NodePath.matchedSlash st = true
       /\ n = len)
      \/ (n < NodePath.end_ st <= len /\ NodePath.matchedSlash st = false
          /\ (NodePath.startDot st = -1 \/ n <= NodePath.startDot st < NodePath.end_ st))).

(** [marked e st]: the scan of [NodePath.extname] has marked the end of
    the name at [e], and the dot, if one is recorded, lies before it. *)
Definition marked (e : Z) (st : NodePath.scan) : Prop :=
  NodePath.end_ st = e
  /\ (NodePath.startDot st = -1 \/ 0 <= NodePath.startDot st < e).

(** [n] slashes in a row. *)
Fixpoint slashes (n : nat) : string :=
  match n with
  | O => ""
  | S m => String "/" (slashes m)
  end.

(** ** The commands registered by [activate]

    A command handler ends in one of a few ways: it returns without
    doing anything, shows one of its error messages, hands a URL to
    [vscode.env.openExternal], hands a file to [openFileWithCreatePrompt],
    or rejects with an error nobody catches. *)

Inductive message :=
| NoSourceFile      (* no uri and no active editor *)
| NotInDocsTree     (* parseDocInfo answered null *)
| RootNotFound      (* the error thrown by buildTargetFileUri, shown by the catch *)
| UrlNotParsed      (* parseUrlToLangAndRel answered null *)
| NoWorkspaceOpen.  (* pickDocsWorkspace answered null *)

Inductive ending :=
| Silent
| ShowError (m : message)
| OpenExternal (url : string)
| OpenWithCreatePrompt (target : string)
| Rejected.

(** [m5docs.openSibling.<targetLang>]; [source] is [uri ??
    activeTextEditor?.document.uri] as an [fsPath]. *)
Definition openSibling (languages : list Lang) (staticDir : string)
  (treatReadmeAsIndex : bool) (targetLang : Lang) (source : option string) : ending :=
  match source with
  | None => ShowError NoSourceFile
  | Some p =>
      match parseDocInfo p languages staticDir treatReadmeAsIndex with
      | None => ShowError NotInDocsTree
      | Some info =>
          match buildTargetFileUri p targetLang info with
          | None => ShowError RootNotFound
          | Some target => OpenWithCreatePrompt target
          end
      end
  end.

(** [m5docs.openOnline] *)
Definition openOnline (languages : list Lang) (staticDir : string)
  (treatReadmeAsIndex : bool) (onlineBase : string) (source : option string) : ending :=
  match source with
  | None => Silent
  | Some p =>
      match parseDocInfo p languages staticDir treatReadmeAsIndex with
      | None => ShowError NotInDocsTree
      | Some info => OpenExternal (buildUrl onlineBase (lang info) (relPathNoExt info))
      end
  end.

(** [m5docs.openPreview]; [ifs] is what [os.networkInterfaces()] returns. *)
Definition openPreview (parse_host : string -> option string)
  (new_URL : string -> option URL)
  (ifs : list (string * option (list NetworkInterfaceInfo)))
  (languages : list Lang) (staticDir : string)
  (treatReadmeAsIndex : bool) (previewBase : string) (source : option string) : ending :=
  match source with
  | None => Silent
  | Some p =>
      match parseDocInfo p languages staticDir treatReadmeAsIndex with
      | None => ShowError NotInDocsTree
      | Some info =>
          let lan := getLanIPv4Prefer192 ifs in
          let effectivePreviewBase := patchBaseHost parse_host new_URL previewBase lan in
          OpenExternal (buildUrl effectivePreviewBase (lang info) (relPathNoExt info))
      end
  end.

(** The path fragments that [m5docs.openFromUrl] hands to
    [Uri.joinPath] after the workspace folder's uri. *)
Definition targetFragments (staticDir : string) (parsed : Lang * string) : list string :=
  let relWithExt := Js.stripTrailingSlashes (snd parsed) ++ ".md" in
  staticDir :: fst parsed :: Js.split "/" relWithExt.

(** [m5docs.openFromUrl]; [urlStr] is what the input box returned
    ([None] when it was dismissed), [folders] the open workspace
    folders.  The handler has no [catch]: a rejection of
    [pickDocsWorkspace] is the command's. *)
Definition openFromUrl (new_URL : string -> option URL)
  (joinPath : string -> list string -> string) (exists_ : string -> bool)
  (folders : list WorkspaceFolder)
  (languages : list Lang) (staticDir : string) (docsRootName : string)
  (urlStr : option string) : ending :=
  if negb (truthy urlStr) then Silent
  else
    match urlStr with
    | None => Silent
    | Some s =>
        match parseUrlToLangAndRel new_URL s languages with
        | None => ShowError UrlNotParsed
        | Some parsed =>
            match pickDocsWorkspace joinPath exists_ folders staticDir languages
                    (Some docsRootName) with
            | Throws => Rejected
            | Returns None => ShowError NoWorkspaceOpen
            | Returns (Some ws) =>
                OpenWithCreatePrompt (joinPath (uri ws) (targetFragments staticDir parsed))
            end
        end
    end.

(** ** [m5docs.openAllLanguages]

    What the command does to the editor and the file system, in order.
    [fs] says which files exist; [answers] are the user's answers to
    the successive creation prompts, [true] for the button that creates
    ([false], or no answer left, for anything else).  The editor's file
    operations are taken to succeed; one that fails throws into the
    [catch], which shows the error and ends the loop, so that run's
    effects are an initial part of these. *)

Inductive effect :=
| AskCreate (target : string)
| CreateFile (target : string)
| ShowDocument (target : string)
| ErrorMessage (m : message).

(** The file system after [ensureCreateFile target]. *)
Definition created (fs : string -> bool) (target : string) : string -> bool :=
  fun q => String.eqb q target || fs q.

(** The loop over the other languages. *)
Fixpoint openOthers (source : string) (info : DocInfo) (others : list Lang)
  (fs : string -> bool) (answers : list bool) : list effect :=
  match others with
  | [] => []
  | l :: rest =>
      match buildTargetFileUri source l info with
      | None => [ErrorMessage RootNotFound]
      | Some target =>
          if negb (fs target) then
            match answers with
            | true :: more =>
                AskCreate target :: CreateFile target :: ShowDocument target
                :: openOthers source info rest (created fs target) more
            | false :: more => AskCreate target :: openOthers source info rest fs more
            | [] => AskCreate target :: openOthers source info rest fs []
            end
          else ShowDocument target :: openOthers source info rest fs answers
      end
  end.

Definition openAllLanguages (languages : list Lang) (staticDir : string)
  (treatReadmeAsIndex : bool) (fs : string -> bool) (answers : list bool)
  (source : option string) : list effect :=
  match source with
  | None => [ErrorMessage NoSourceFile]
  | Some p =>
      match parseDocInfo p languages staticDir treatReadmeAsIndex with
      | None => [ErrorMessage NotInDocsTree]
      | Some info =>
          let others := filter (fun l => negb (String.eqb l (lang info))) languages in
          openOthers p info others fs answers
      end
  end.

(** The file an effect is about, if any. *)
Definition effectTarget (e : effect) : option string :=
  match e with
  | AskCreate t | CreateFile t | ShowDocument t => Some t
  | ErrorMessage _ => None
  end.

(** ** The content written by [ensureCreateFile]

    [template.replace(/\$\{BASENAME\}/g, baseName)] with a string as
    the replacement: ECMAScript's GetSubstitution expands the dollar
    patterns of [baseName] at every match.  The pattern has no capture
    group, so [$1]..[$99] and [$<] stand for themselves. *)

Definition placeholder : string := "${BASENAME}".

(** GetSubstitution for a match [matched] found after [before] and
    followed by [after]. *)
Fixpoint getSubstitution (matched before after replacement : string) : string :=
  match replacement with
  | EmptyString => ""
  | String c r =>
      if Ascii.eqb c "$" then
        match r with
        | String d r' =>
            if Ascii.eqb d "$" then String "$" (getSubstitution matched before after r')
            else if Ascii.eqb d "&" then matched ++ getSubstitution matched before after r'
            else if Ascii.eqb d "`" then before ++ getSubstitution matched before after r'
            else if Ascii.eqb d "'" then after ++ getSubstitution matched before after r'
            else String c (getSubstitution matched before after r)
        | EmptyString => String c ""
        end
      else String c (getSubstitution matched before after r)
  end.

(** The scan of the global replace.  [before] is the text already
    passed; [skip] counts the characters of a match still to be passed
    over, so that matches do not overlap. *)
Fixpoint replaceFrom (baseName : string) (skip : nat) (before s : string) : string :=
  match s with
  | EmptyString => ""
  | String c r =>
      match skip with
      | S k => replaceFrom baseName k (before ++ String c "") r
      | O =>
          if prefix placeholder s then
            getSubstitution placeholder before
              (substring (String.length placeholder) (String.length s) s) baseName
            ++ replaceFrom baseName (String.length placeholder - 1) (before ++ String c "") r
          else String c (replaceFrom baseName 0 (before ++ String c "") r)
      end
  end.

(** [template.replace(/\$\{BASENAME\}/g, baseName)] *)
Definition templateContent (template baseName : string) : string :=
  replaceFrom baseName 0 "" template.

(** * Properties *)

(** ** The code on the specification's examples *)

Example extname_md : NodePath.extname "guide/README.md" = ".md".
Proof. reflexivity. Qed.

Example extname_none : NodePath.extname "guide/README" = "".
Proof. reflexivity. Qed.

Example extname_dotfile : NodePath.extname "a/.bashrc" = "".
Proof. reflexivity. Qed.

Example extname_dotdot : NodePath.extname "a/.." = "".
Proof. reflexivity. Qed.

Example extname_last_dot : NodePath.extname "x.tar.gz" = ".gz".
Proof. reflexivity. Qed.

Example extname_trailing_slash : NodePath.extname "a.b/" = ".b".
Proof. reflexivity. Qed.

Example split_keeps_empty_segments :
  Js.split "/" "/w/static//a" = [""; "w"; "static"; ""; "a"].
Proof. reflexivity. Qed.

Example string_primitives :
  Js.stripTrailingSlashes "a/b//" = "a/b"
  /\ Js.stripLeadingSlashes "//a/" = "a/"
  /\ Js.dropSuffix "/README" "g/README" = "g"
  /\ Js.strLastIndexOf "abcabc" "bc" = 4
  /\ Js.strLastIndexOf "abc" "" = 3
  /\ Js.slice "abcdef" 0 (-2) = "abcd".
Proof. repeat split; reflexivity. Qed.

(** README normalization: [.../static/en/guide/README.md] gives [guide]
    with the option on and [guide/README] with it off. *)
Example readme_index_on :
  parseDocInfo "/w/static/en/guide/README.md" langs3 "static" true
  = Some {| lang := "en"; relPathWithExt := "guide/README.md";
            relPathNoExt := "guide"; staticDir := "static" |}.
Proof. reflexivity. Qed.

Example readme_index_off :
  parseDocInfo "/w/static/en/guide/README.md" langs3 "static" false
  = Some {| lang := "en"; relPathWithExt := "guide/README.md";
            relPathNoExt := "guide/README"; staticDir := "static" |}.
Proof. reflexivity. Qed.

(** A Windows path resolves through its forward-slash form. *)
Example windows_path :
  parseDocInfo "C:\w\static\en\a\b.md" langs3 "static" true
  = Some {| lang := "en"; relPathWithExt := "a/b.md";
            relPathNoExt := "a/b"; staticDir := "static" |}.
Proof. reflexivity. Qed.

(** The rightmost [static] is the anchor. *)
Example rightmost_static :
  parseDocInfo "/static/old/w/static/ja/a.md" langs3 "static" true
  = Some {| lang := "ja"; relPathWithExt := "a.md";
            relPathNoExt := "a"; staticDir := "static" |}.
Proof. reflexivity. Qed.

Example sibling_of_english :
  buildTargetFileUri "/w/static/en/a/b.md" "ja"
    {| lang := "en"; relPathWithExt := "a/b.md"; relPathNoExt := "a/b"; staticDir := "static" |}
  = Some "/w/static/ja/a/b.md".
Proof. reflexivity. Qed.

(** The reference URL constructor on the URLs used below. *)
Example reference_url_with_path :
  UrlRef.new_URL "https://docs.m5stack.com/docs/zh_CN/a/b"
  = Some {| protocol := "https:"; username := ""; password := "";
            host := Some "docs.m5stack.com"; port := ""; pathname := "/docs/zh_CN/a/b";
            search := ""; hash := ""; opaquePath := false |}.
Proof. reflexivity. Qed.

Example reference_url_root_path :
  option_map URL_toString (UrlRef.new_URL "http://127.0.0.1:3000")
  = Some "http://127.0.0.1:3000/".
Proof. reflexivity. Qed.

Example reference_url_default_port :
  option_map URL_toString (UrlRef.new_URL "http://a.b:80/x") = Some "http://a.b/x".
Proof. reflexivity. Qed.

Example reference_url_outside :
  UrlRef.new_URL "not a url" = None
  /\ UrlRef.new_URL "http://1.2.3/" = None
  /\ UrlRef.new_URL "http://a.b:80/x/../y" = None.
Proof. repeat split; reflexivity. Qed.

(** URL round trip and the too-short URL. *)
Example url_parse_example :
  parseUrlToLangAndRel UrlRef.new_URL "https://docs.m5stack.com/zh_CN/a/b" langs3
  = Some ("zh_CN", "a/b").
Proof. reflexivity. Qed.

Example url_parse_too_short :
  parseUrlToLangAndRel UrlRef.new_URL "https://docs.m5stack.com/zh_CN" langs3 = None.
Proof. reflexivity. Qed.

(** LAN substitution: only [10.0.0.5] available, and nothing available. *)
Example lan_only_10 :
  patchBaseHost UrlRef.parse_host UrlRef.new_URL "http://127.0.0.1:3000"
    (getLanIPv4Prefer192
       [("eth0", Some [{| address := "10.0.0.5"; family := "IPv4"; internal := false |}])])
  = "http://10.0.0.5:3000".
Proof. reflexivity. Qed.

Example lan_nothing_available :
  patchBaseHost UrlRef.parse_host UrlRef.new_URL "http://127.0.0.1:3000"
    (getLanIPv4Prefer192
       [("lo", Some [{| address := "127.0.0.1"; family := "IPv4"; internal := true |}])])
  = "http://127.0.0.1:3000".
Proof. reflexivity. Qed.

(** ** Strings: append, length, slices *)

Section StringFacts.

Lemma append_nil_r (s : string) : s ++ "" = s.
Proof. induction s as [|c s IH]; simpl; [reflexivity | now rewrite IH]. Qed.

Lemma append_assoc (a b c : string) : (a ++ b) ++ c = a ++ b ++ c.
Proof. induction a as [|x a IH]; simpl; [reflexivity | now rewrite IH]. Qed.

Lemma length_append (a b : string) :
  String.length (a ++ b) = (String.length a + String.length b)%nat.
Proof. induction a as [|x a IH]; simpl; [reflexivity | now rewrite IH]. Qed.

Lemma append_inv_head (a b c : string) : a ++ b = a ++ c -> b = c.
Proof.
  induction a as [|x a IH]; simpl; intros H; [exact H|].
  injection H as H. now apply IH.
Qed.

Lemma substring_all (s : string) : substring 0 (String.length s) s = s.
Proof. induction s as [|c s IH]; simpl; [reflexivity | now rewrite IH]. Qed.

Lemma substring_head (r x : string) : substring 0 (String.length r) (r ++ x) = r.
Proof.
  induction r as [|c r IH]; simpl.
  - now destruct x.
  - now rewrite IH.
Qed.

Lemma slice_head (r x : string) : Js.slice (r ++ x) 0 (Js.len r) = r.
Proof.
  unfold Js.slice, Js.rel_index, Js.len.
  rewrite length_append.
  change (0 <? 0) with false. cbv iota.
  destruct (Z.ltb_spec (Z.of_nat (String.length r)) 0) as [Hneg|_]; [lia|].
  rewrite !Z.min_l by lia.
  rewrite Z.sub_0_r, Nat2Z.id. apply substring_head.
Qed.

Lemma slice_all (s : string) : Js.slice s 0 (Js.len s) = s.
Proof.
  pose proof (slice_head s "") as H. now rewrite append_nil_r in H.
Qed.

Lemma prefix_append (a b : string) : prefix a (a ++ b) = true.
Proof.
  induction a as [|c a IH]; simpl.
  - now destruct b.
  - destruct (ascii_dec c c) as [_|N]; [exact IH | now elim N].
Qed.

Lemma prefix_length (a s : string) :
  prefix a s = true -> (String.length a <= String.length s)%nat.
Proof.
  revert s; induction a as [|c a IH]; intros [|d s]; simpl; intros H;
    try lia; try discriminate.
  destruct (ascii_dec c d); [|discriminate].
  apply IH in H. lia.
Qed.

Lemma prefix_inv (a s : string) : prefix a s = true -> exists t, s = a ++ t.
Proof.
  revert s; induction a as [|c a IH]; intros s H.
  - now exists s.
  - destruct s as [|d s]; simpl in H; [discriminate|].
    destruct (ascii_dec c d) as [->|]; [|discriminate].
    destruct (IH _ H) as [t ->]. now exists t.
Qed.

End StringFacts.

(** ** [split] and [join] *)

Section SplitJoin.

Variable sep : ascii.

Lemma split_not_nil (s : string) : Js.split sep s <> [].
Proof.
  destruct s as [|c s]; simpl; [discriminate|].
  destruct (Ascii.eqb c sep); [discriminate|].
  destruct (Js.split sep s); discriminate.
Qed.

Lemma split_no_sep (s : string) : has_char sep s = false -> Js.split sep s = [s].
Proof.
  induction s as [|c s IH]; simpl; [reflexivity|].
  intros H. apply orb_false_elim in H as [Hc Hs].
  rewrite Hc, (IH Hs). reflexivity.
Qed.

Lemma split_append (a b : string) :
  Js.split sep (a ++ String sep b) = (Js.split sep a ++ Js.split sep b)%list.
Proof.
  induction a as [|c a IH]; simpl.
  - now rewrite Ascii.eqb_refl.
  - destruct (Ascii.eqb c sep); [now rewrite IH|].
    rewrite IH. pose proof (split_not_nil a) as Hn.
    destruct (Js.split sep a) as [|h t]; [now elim Hn | reflexivity].
Qed.

Lemma split_elements (s : string) :
  Forall (fun x => has_char sep x = false) (Js.split sep s).
Proof.
  induction s as [|c s IH]; simpl.
  - now constructor.
  - destruct (Ascii.eqb c sep) eqn:E; [now constructor|].
    destruct (Js.split sep s) as [|h t]; [repeat constructor; simpl; now rewrite E|].
    inversion IH as [|? ? Hh Ht]; subst.
    constructor; [simpl; now rewrite E, Hh | exact Ht].
Qed.

Lemma join_cons (x : string) (l : list string) :
  l <> [] -> Js.join (String sep "") (x :: l) = x ++ String sep (Js.join (String sep "") l).
Proof. destruct l; [intros H; now elim H | reflexivity]. Qed.

Lemma join_split (s : string) : Js.join (String sep "") (Js.split sep s) = s.
Proof.
  induction s as [|c s IH]; simpl; [reflexivity|].
  destruct (Ascii.eqb_spec c sep) as [->|Hc].
  - rewrite join_cons by apply split_not_nil. simpl. now rewrite IH.
  - pose proof (split_not_nil s) as Hn.
    destruct (Js.split sep s) as [|h t]; [now elim Hn|].
    destruct t as [|h' t]; simpl in *; now rewrite IH.
Qed.

Lemma join_app (pre rest : list string) :
  pre <> [] -> rest <> [] ->
  Js.join (String sep "") (pre ++ rest)%list
  = Js.join (String sep "") pre ++ String sep (Js.join (String sep "") rest).
Proof.
  induction pre as [|x pre IH]; intros Hp Hr; [now elim Hp|].
  destruct pre as [|y pre].
  - simpl app. now rewrite join_cons.
  - change ((x :: y :: pre) ++ rest)%list with (x :: ((y :: pre) ++ rest))%list.
    rewrite join_cons by discriminate.
    rewrite IH by (assumption || discriminate).
    rewrite (join_cons x (y :: pre)) by discriminate.
    rewrite append_assoc. reflexivity.
Qed.

Lemma split_join (l : list string) :
  l <> [] -> Forall (fun x => has_char sep x = false) l ->
  Js.split sep (Js.join (String sep "") l) = l.
Proof.
  induction l as [|x l IH]; intros Hn Hall; [now elim Hn|].
  inversion Hall as [|? ? Hx Hl]; subst.
  destruct l as [|y l].
  - simpl. now apply split_no_sep.
  - rewrite join_cons by discriminate.
    rewrite split_append, IH by (assumption || discriminate).
    now rewrite split_no_sep.
Qed.

End SplitJoin.

(** ** Searching from the end *)

Section LastIndex.

Lemma last_pos_None (x : string) (a : list string) :
  Js.last_pos x a = None <-> ~ In x a.
Proof.
  induction a as [|y a IH]; simpl.
  - tauto.
  - destruct (Js.last_pos x a) as [i|].
    + split; [discriminate|]. intros H. exfalso. apply H. right.
      destruct (in_dec string_dec x a) as [Hin|Hn]; [exact Hin|].
      apply IH in Hn. discriminate.
    + destruct (String.eqb_spec y x) as [->|Hne].
      * split; [discriminate|]. intros H. elim H. now left.
      * split; [|reflexivity]. intros _ [H|H]; [now elim Hne|].
        now apply (proj1 IH).
Qed.

Lemma last_pos_Some (x : string) (a : list string) (i : nat) :
  Js.last_pos x a = Some i ->
  exists pre post, a = (pre ++ x :: post)%list /\ List.length pre = i /\ ~ In x post.
Proof.
  revert i; induction a as [|y a IH]; simpl; intros i H; [discriminate|].
  destruct (Js.last_pos x a) as [j|] eqn:E.
  - injection H as <-. destruct (IH j eq_refl) as (pre & post & -> & Hl & Hn).
    exists (y :: pre), post. simpl. now rewrite Hl.
  - destruct (String.eqb_spec y x) as [->|]; [|discriminate].
    injection H as <-. exists [], a. repeat split. now apply last_pos_None.
Qed.

Lemma last_pos_app (x : string) (pre post : list string) :
  ~ In x post -> Js.last_pos x (pre ++ x :: post)%list = Some (List.length pre).
Proof.
  intros Hn. induction pre as [|y pre IH]; simpl.
  - apply last_pos_None in Hn. now rewrite Hn, String.eqb_refl.
  - now rewrite IH.
Qed.

Lemma last_occurrence_short (needle s : string) :
  (String.length s < String.length needle)%nat -> Js.last_occurrence needle s = None.
Proof.
  induction s as [|c s IH]; cbn [Js.last_occurrence String.length]; intros H.
  - destruct needle; [simpl in H; lia | reflexivity].
  - rewrite IH by lia.
    destruct (prefix needle (String c s)) eqn:E; [|reflexivity].
    apply prefix_length in E. simpl in E. lia.
Qed.

Lemma last_occurrence_self (needle : string) : Js.last_occurrence needle needle = Some O.
Proof.
  destruct needle as [|c n]; [reflexivity|].
  cbn [Js.last_occurrence].
  rewrite last_occurrence_short by (simpl; lia).
  pose proof (prefix_append (String c n) "") as H.
  rewrite append_nil_r in H. now rewrite H.
Qed.

(** A needle that ends the string is found where it starts. *)
Lemma last_occurrence_suffix (r needle : string) :
  Js.last_occurrence needle (r ++ needle) = Some (String.length r).
Proof.
  induction r as [|c r IH]; simpl.
  - apply last_occurrence_self.
  - now rewrite IH.
Qed.

Lemma strLastIndexOf_suffix (r needle : string) :
  Js.strLastIndexOf (r ++ needle) needle = Js.len r.
Proof. unfold Js.strLastIndexOf. now rewrite last_occurrence_suffix. Qed.

Lemma strLastIndexOf_short (s needle : string) :
  (String.length s < String.length needle)%nat -> Js.strLastIndexOf s needle = -1.
Proof. intros H. unfold Js.strLastIndexOf. now rewrite last_occurrence_short. Qed.

Lemma at_index_succ (a : list string) (i : nat) :
  Js.at_index a (Z.of_nat i + 1) = nth_error a (S i).
Proof.
  unfold Js.at_index. destruct (Z.ltb_spec (Z.of_nat i + 1) 0); [lia|].
  f_equal. lia.
Qed.

Lemma slice_from_succ2 (a : list string) (i : nat) :
  Js.slice_from a (Z.of_nat i + 2) = skipn (S (S i)) a.
Proof. unfold Js.slice_from. f_equal. lia. Qed.

Lemma includes_In (a : list string) (x : string) :
  Js.includes a (Some x) = true <-> In x a.
Proof.
  unfold Js.includes. rewrite existsb_exists. split.
  - intros (y & Hy & E). apply String.eqb_eq in E. now subst.
  - intros H. exists x. split; [exact H | apply String.eqb_refl].
Qed.

End LastIndex.

(** ** [toPosix] *)

Section Posix.

Lemma toPosix_append (a b : string) : toPosix (a ++ b) = toPosix a ++ toPosix b.
Proof. induction a as [|c a IH]; simpl; [reflexivity | now rewrite IH]. Qed.

Lemma toPosix_no_backslash (s : string) : has_char "\" (toPosix s) = false.
Proof.
  induction s as [|c s IH]; simpl; [reflexivity|].
  rewrite IH, orb_false_r.
  destruct (Ascii.eqb_spec c "\"); [reflexivity|].
  now apply Ascii.eqb_neq.
Qed.

Lemma toPosix_id (s : string) : has_char "\" s = false -> toPosix s = s.
Proof.
  induction s as [|c s IH]; simpl; [reflexivity|].
  intros H. apply orb_false_elim in H as [Hc Hs].
  now rewrite Hc, IH.
Qed.

Lemma toPosix_idem (s : string) : toPosix (toPosix s) = toPosix s.
Proof. apply toPosix_id, toPosix_no_backslash. Qed.

Lemma has_char_append (c : ascii) (a b : string) :
  has_char c (a ++ b) = has_char c a || has_char c b.
Proof. induction a as [|d a IH]; simpl; [reflexivity | now rewrite IH, orb_assoc]. Qed.

Lemma has_char_join (c : ascii) (l : list string) :
  c <> "/"%char -> Forall (fun x => has_char c x = false) l ->
  has_char c (Js.join "/" l) = false.
Proof.
  intros Hc. induction l as [|x l IH]; intros Hall; [reflexivity|].
  inversion Hall as [|? ? Hx Hl]; subst.
  destruct l as [|y l]; [exact Hx|].
  rewrite (join_cons "/") by discriminate.
  rewrite has_char_append, Hx. cbn [has_char orb].
  rewrite (IH Hl), orb_false_r.
  apply Ascii.eqb_neq. congruence.
Qed.

(** The pieces of a split string contain a character only if the
    string does. *)
Lemma split_has_char (c sep : ascii) (s : string) :
  has_char c s = false -> Forall (fun x => has_char c x = false) (Js.split sep s).
Proof.
  induction s as [|d s IH]; simpl; intros H.
  - now repeat constructor.
  - apply orb_false_elim in H as [Hd Hs]. specialize (IH Hs).
    destruct (Ascii.eqb d sep).
    + now constructor.
    + destruct (Js.split sep s) as [|h t].
      * repeat constructor. simpl. now rewrite Hd.
      * inversion IH; subst. constructor; [simpl; now rewrite Hd | assumption].
Qed.

End Posix.

(** ** [parseDocInfo] and [buildTargetFileUri] on the segments of a path *)

Section Resolver.

Variable languages : list Lang.
Variable sd : string.
Variable readmeAsIndex : bool.

Lemma nth_after (pre post : list string) (x : string) :
  nth_error (pre ++ x :: post)%list (S (List.length pre)) = nth_error post 0.
Proof. induction pre as [|y pre IH]; simpl; [reflexivity | exact IH]. Qed.

Lemma skipn_after (pre post : list string) (x : string) :
  skipn (S (S (List.length pre))) (pre ++ x :: post)%list = skipn 1 post.
Proof. induction pre as [|y pre IH]; simpl; [reflexivity | exact IH]. Qed.

(** A path whose segments read [pre, sd, l, rel...] with no later
    occurrence of the static directory's name resolves to language [l]
    and relative path [rel]. *)
Lemma parseDocInfo_segments (p : string) (pre rel : list string) (l : Lang) :
  Js.split "/" (toPosix p) = (pre ++ sd :: l :: rel)%list ->
  ~ In sd (l :: rel) -> rel <> [] -> In l languages ->
  exists info,
    parseDocInfo p languages sd readmeAsIndex = Some info
    /\ lang info = l /\ relPathWithExt info = Js.join "/" rel /\ staticDir info = sd.
Proof.
  intros Hparts Hlast Hrel Hin.
  unfold parseDocInfo. cbv zeta. rewrite Hparts.
  unfold Js.lastIndexOf. rewrite (last_pos_app sd pre (l :: rel) Hlast).
  destruct (Z.ltb_spec (Z.of_nat (List.length pre)) 0) as [Hneg|_]; [lia|].
  rewrite at_index_succ, slice_from_succ2, nth_after, skipn_after.
  cbn [nth_error skipn].
  apply includes_In in Hin. rewrite Hin. cbn [negb].
  destruct rel as [|r0 rel']; [now elim Hrel|].
  destruct (Z.eqb_spec (Z.of_nat (List.length (r0 :: rel'))) 0) as [E|_];
    [simpl in E; lia|].
  eexists. split; [reflexivity|]. now repeat split.
Qed.

(** Conversely, a resolved path has that shape. *)
Lemma parseDocInfo_inv (p : string) (info : DocInfo) :
  parseDocInfo p languages sd readmeAsIndex = Some info ->
  exists pre rel,
    Js.split "/" (toPosix p) = (pre ++ sd :: lang info :: rel)%list
    /\ ~ In sd (lang info :: rel) /\ rel <> [] /\ In (lang info) languages
    /\ relPathWithExt info = Js.join "/" rel /\ staticDir info = sd.
Proof.
  unfold parseDocInfo. cbv zeta. unfold Js.lastIndexOf.
  destruct (Js.last_pos sd (Js.split "/" (toPosix p))) as [i|] eqn:Epos;
    [|intros H; discriminate H].
  destruct (last_pos_Some _ _ _ Epos) as (pre & post & Hparts & <- & Hlast).
  rewrite Hparts.
  destruct (Z.ltb_spec (Z.of_nat (List.length pre)) 0) as [Hneg|_]; [lia|].
  rewrite at_index_succ, slice_from_succ2, nth_after, skipn_after.
  destruct post as [|l rel]; cbn [nth_error skipn Js.includes negb];
    [intros H; discriminate H|].
  destruct (existsb (String.eqb l) languages) eqn:Einc; cbn [negb];
    [|intros H; discriminate H].
  destruct (Z.eqb_spec (Z.of_nat (List.length rel)) 0) as [E|E];
    [intros H; discriminate H|].
  intros H. injection H as <-. cbn [lang relPathWithExt staticDir].
  exists pre, rel. repeat split; try assumption.
  - intros ->. now apply E.
  - now apply includes_In.
Qed.

(** The posix path is its root followed by the needle
    [/sd/lang/rel] that [buildTargetFileUri] searches for. *)
Lemma path_of_segments (p : string) (pre rel : list string) (l : Lang) :
  Js.split "/" (toPosix p) = (pre ++ sd :: l :: rel)%list ->
  pre <> [] -> rel <> [] ->
  toPosix p = Js.join "/" pre ++ "/" ++ sd ++ "/" ++ l ++ "/" ++ Js.join "/" rel.
Proof.
  intros Hparts Hpre Hrel.
  rewrite <- (join_split "/" (toPosix p)), Hparts.
  rewrite (join_app "/") by (assumption || discriminate).
  rewrite (join_cons "/") by discriminate.
  rewrite (join_cons "/") by assumption.
  reflexivity.
Qed.

Lemma buildTargetFileUri_segments (p : string) (pre rel : list string)
  (info : DocInfo) (tgt : Lang) :
  Js.split "/" (toPosix p) = (pre ++ sd :: lang info :: rel)%list ->
  pre <> [] -> rel <> [] ->
  relPathWithExt info = Js.join "/" rel -> staticDir info = sd ->
  buildTargetFileUri p tgt info
  = Some (Js.join "/" pre ++ "/" ++ sd ++ "/" ++ tgt ++ "/" ++ Js.join "/" rel).
Proof.
  intros Hparts Hpre Hrel Hrp Hsd.
  unfold buildTargetFileUri. cbv zeta.
  rewrite (path_of_segments p pre rel (lang info) Hparts Hpre Hrel), Hrp, Hsd.
  rewrite strLastIndexOf_suffix.
  destruct (Z.ltb_spec (Js.len (Js.join "/" pre)) 0) as [Hneg|_];
    [unfold Js.len in Hneg; lia|].
  now rewrite slice_head.
Qed.

(** Without a root segment before the static directory the needle,
    which starts with a slash, is longer than the path. *)
Lemma buildTargetFileUri_no_root (p : string) (rel : list string)
  (info : DocInfo) (tgt : Lang) :
  Js.split "/" (toPosix p) = sd :: lang info :: rel ->
  rel <> [] ->
  relPathWithExt info = Js.join "/" rel -> staticDir info = sd ->
  buildTargetFileUri p tgt info = None.
Proof.
  intros Hparts Hrel Hrp Hsd.
  unfold buildTargetFileUri. cbv zeta.
  rewrite strLastIndexOf_short; [reflexivity|].
  rewrite <- (join_split "/" (toPosix p)), Hparts, Hrp, Hsd.
  rewrite (join_cons "/") by discriminate.
  rewrite (join_cons "/") by assumption.
  cbn [append String.length]. lia.
Qed.

End Resolver.

(** ** Resolving, rebuilding, and resolving again *)

Section RoundTrip.

Variable languages : list Lang.
Variable sd : string.
Variable readmeAsIndex : bool.

(** The segments of [root/sd/l/P] are those of the root, then [sd],
    [l] and the segments of [P]. *)
Lemma split_doc_path (root l P : string) :
  plain sd -> plain l -> has_char "\" P = false ->
  Js.split "/" (toPosix (root ++ "/" ++ sd ++ "/" ++ l ++ "/" ++ P))
  = (Js.split "/" (toPosix root) ++ sd :: l :: Js.split "/" P)%list.
Proof.
  intros [Hs1 Hs2] [Hl1 Hl2] HP.
  rewrite !toPosix_append.
  rewrite (toPosix_id sd Hs2), (toPosix_id l Hl2), (toPosix_id P HP).
  change (toPosix "/") with "/".
  change ("/" ++ sd ++ "/" ++ l ++ "/" ++ P) with (String "/" (sd ++ String "/" (l ++ String "/" P))).
  rewrite !split_append.
  now rewrite (split_no_sep "/" sd Hs1), (split_no_sep "/" l Hl1).
Qed.

(** Resolve a path, then build the sibling for [tgt]: the path comes
    back with [tgt] in the language segment. *)
Lemma resolve_then_build (p : string) (pre rel : list string) (l tgt : Lang) :
  Js.split "/" (toPosix p) = (pre ++ sd :: l :: rel)%list ->
  pre <> [] -> ~ In sd (l :: rel) -> rel <> [] -> In l languages ->
  exists info,
    parseDocInfo p languages sd readmeAsIndex = Some info
    /\ lang info = l /\ relPathWithExt info = Js.join "/" rel
    /\ buildTargetFileUri p tgt info
       = Some (Js.join "/" pre ++ "/" ++ sd ++ "/" ++ tgt ++ "/" ++ Js.join "/" rel).
Proof.
  intros Hparts Hpre Hlast Hrel Hin.
  destruct (parseDocInfo_segments languages sd readmeAsIndex p pre rel l
              Hparts Hlast Hrel Hin) as (info & Hp & Hl & Hr & Hs).
  exists info. repeat split; try assumption.
  apply buildTargetFileUri_segments; try assumption.
  now rewrite Hl.
Qed.

(** The sibling path splits into the same segments, with the new
    language. *)
Lemma split_sibling (p : string) (pre rel : list string) (l tgt : Lang) :
  Js.split "/" (toPosix p) = (pre ++ sd :: l :: rel)%list ->
  pre <> [] -> rel <> [] -> plain tgt ->
  Js.split "/" (toPosix (Js.join "/" pre ++ "/" ++ sd ++ "/" ++ tgt ++ "/" ++ Js.join "/" rel))
  = (pre ++ sd :: tgt :: rel)%list.
Proof.
  intros Hparts Hpre Hrel [Ht1 Ht2].
  pose proof (split_elements "/" (toPosix p)) as Hslash.
  pose proof (split_has_char "\" "/" (toPosix p) (toPosix_no_backslash p)) as Hback.
  rewrite Hparts in Hslash, Hback.
  apply Forall_app in Hslash as [Hs_pre Hs_post].
  apply Forall_app in Hback as [Hb_pre Hb_post].
  inversion Hs_post as [|? ? Hs_sd Hs_post']; subst.
  inversion Hs_post' as [|? ? _ Hs_rel]; subst.
  inversion Hb_post as [|? ? Hb_sd Hb_post']; subst.
  inversion Hb_post' as [|? ? _ Hb_rel]; subst.
  assert (Hjoin : Js.join "/" pre ++ "/" ++ sd ++ "/" ++ tgt ++ "/" ++ Js.join "/" rel
                  = Js.join "/" (pre ++ sd :: tgt :: rel)%list).
  { rewrite (join_app "/") by (assumption || discriminate).
    rewrite (join_cons "/" sd) by discriminate.
    now rewrite (join_cons "/" tgt) by assumption. }
  rewrite Hjoin.
  rewrite toPosix_id.
  - apply split_join.
    + destruct pre; [now elim Hpre | discriminate].
    + apply Forall_app. split; [exact Hs_pre|]. repeat constructor; assumption.
  - apply has_char_join; [discriminate|].
    apply Forall_app. split; [exact Hb_pre|]. repeat constructor; assumption.
Qed.

(** There and back: from [l1] to [l2] and from the result to [l1]. *)
Lemma there_and_back (p : string) (pre rel : list string) (l1 l2 : Lang) :
  Js.split "/" (toPosix p) = (pre ++ sd :: l1 :: rel)%list ->
  pre <> [] -> ~ In sd (l1 :: rel) -> rel <> [] ->
  In l1 languages -> In l2 languages -> plain l2 -> l2 <> sd ->
  exists info1 p2 info2,
    parseDocInfo p languages sd readmeAsIndex = Some info1
    /\ lang info1 = l1 /\ relPathWithExt info1 = Js.join "/" rel
    /\ buildTargetFileUri p l2 info1 = Some p2
    /\ p2 = Js.join "/" pre ++ "/" ++ sd ++ "/" ++ l2 ++ "/" ++ Js.join "/" rel
    /\ parseDocInfo p2 languages sd readmeAsIndex = Some info2
    /\ lang info2 = l2 /\ relPathWithExt info2 = Js.join "/" rel
    /\ buildTargetFileUri p2 l1 info2 = Some (toPosix p).
Proof.
  intros Hparts Hpre Hlast Hrel Hin1 Hin2 Hplain Hne.
  destruct (resolve_then_build p pre rel l1 l2 Hparts Hpre Hlast Hrel Hin1)
    as (info1 & Hp1 & Hl1 & Hr1 & Hb1).
  pose proof (split_sibling p pre rel l1 l2 Hparts Hpre Hrel Hplain) as Hparts2.
  assert (Hlast2 : ~ In sd (l2 :: rel)).
  { intros [E|E]; [now apply Hne | apply Hlast; now right]. }
  set (p2 := Js.join "/" pre ++ "/" ++ sd ++ "/" ++ l2 ++ "/" ++ Js.join "/" rel) in *.
  destruct (resolve_then_build p2 pre rel l2 l1 Hparts2 Hpre Hlast2 Hrel Hin2)
    as (info2 & Hp2 & Hl2 & Hr2 & Hb2).
  exists info1, p2, info2.
  repeat split; try assumption.
  rewrite Hb2. f_equal. symmetry.
  now apply (path_of_segments sd p pre rel l1).
Qed.

End RoundTrip.

(** ** The document-path properties of the specification *)

(** C1, as the code has it.  For a path [root/sd/l/a/b.md] whose static
    directory [sd], language [l] and names [a], [b.md] are plain names,
    with [l] configured and the name [sd] not used again as [l], [a] or
    [b.md], [parseDocInfo] resolves the path to language [l] and relative
    path [a/b.md], and [buildTargetFileUri] for the same language [l]
    returns the path in forward-slash form: the original path itself when
    its root holds no backslash. *)
Theorem resolve_rebuild_same_language
  (languages : list Lang) (readmeAsIndex : bool) (root sd l a b : string) :
  plain sd -> plain l -> plain a -> plain (b ++ ".md") ->
  sd <> l -> sd <> a -> sd <> b ++ ".md" ->
  In l languages ->
  let p := root ++ "/" ++ sd ++ "/" ++ l ++ "/" ++ a ++ "/" ++ b ++ ".md" in
  exists info,
    parseDocInfo p languages sd readmeAsIndex = Some info
    /\ lang info = l
    /\ relPathWithExt info = a ++ "/" ++ b ++ ".md"
    /\ buildTargetFileUri p l info = Some (toPosix p)
    /\ (has_char "\" root = false -> buildTargetFileUri p l info = Some p).
Proof.
  intros Hsd Hl [Ha1 Ha2] [Hb1 Hb2] Hne1 Hne2 Hne3 Hin p.
  set (P := a ++ "/" ++ b ++ ".md").
  assert (HP : has_char "\" P = false).
  { unfold P. rewrite has_char_append, Ha2. cbn [has_char orb append].
    exact Hb2. }
  assert (HsP : Js.split "/" P = [a; b ++ ".md"]).
  { unfold P. change ("/" ++ b ++ ".md") with (String "/" (b ++ ".md")).
    now rewrite split_append, (split_no_sep "/" a Ha1), (split_no_sep "/" _ Hb1). }
  pose proof (split_doc_path sd root l P Hsd Hl HP) as Hparts.
  fold p in Hparts. rewrite HsP in Hparts.
  pose proof (split_not_nil "/" (toPosix root)) as Hpre.
  assert (Hlast : ~ In sd [l; a; b ++ ".md"]).
  { intros [E|[E|[E|[]]]]; congruence. }
  destruct (resolve_then_build languages sd readmeAsIndex p _ _ l l
              Hparts Hpre Hlast ltac:(discriminate) Hin) as (info & Hp & Hli & Hr & Hb).
  assert (Hback : buildTargetFileUri p l info = Some (toPosix p)).
  { rewrite Hb. f_equal. symmetry.
    now apply (path_of_segments sd p _ _ l Hparts). }
  exists info. repeat split; try assumption.
  intros Hroot. rewrite Hback. f_equal.
  apply toPosix_id.
  change p with (root ++ "/" ++ sd ++ "/" ++ l ++ "/" ++ P).
  destruct Hsd as [_ Hsd2]. destruct Hl as [_ Hl2].
  now rewrite !has_char_append, Hroot, Hsd2, Hl2, HP.
Qed.

Lemma resolve_rebuild_same_language_witness :
  exists info,
    parseDocInfo "/home/u/docs/static/en/guide/intro.md" langs3 "static" true = Some info
    /\ lang info = "en"
    /\ relPathWithExt info = "guide/intro.md"
    /\ buildTargetFileUri "/home/u/docs/static/en/guide/intro.md" "en" info
       = Some (toPosix "/home/u/docs/static/en/guide/intro.md")
    /\ (has_char "\" "/home/u/docs" = false ->
        buildTargetFileUri "/home/u/docs/static/en/guide/intro.md" "en" info
        = Some "/home/u/docs/static/en/guide/intro.md").
Proof.
  apply (resolve_rebuild_same_language langs3 true "/home/u/docs" "static" "en" "guide" "intro");
    try (split; reflexivity); try discriminate.
  simpl. tauto.
Defined.

(** The claim C1 as stated fails where the static directory's name is
    used again below the language: [/w/static/en/static/b.md] has the
    form [root/sd/l/a/b.md] with [l = en] configured, and does not
    resolve, so there is no sibling path to build. *)
Lemma same_language_repeated_static :
  "/w/static/en/static/b.md" = "/w" ++ "/" ++ "static" ++ "/" ++ "en" ++ "/" ++ "static" ++ "/" ++ "b" ++ ".md"
  /\ In "en" langs3
  /\ parseDocInfo "/w/static/en/static/b.md" langs3 "static" true = None.
Proof. repeat split. simpl. tauto. Qed.

(** C2, as the code has it.  For plain names [sd], [l1], [l2] with [l1]
    and [l2] configured and different from [sd], and a relative path [P]
    in forward-slash form none of whose segments is [sd]: the path
    [root/sd/l1/P] resolves to [(l1, P)]; the sibling built for [l2] is
    [root/sd/l2/P]; it resolves to [(l2, P)]; and the sibling built from
    it for [l1] is the original path in forward-slash form, the original
    path itself when its root holds no backslash. *)
Theorem sibling_there_and_back
  (languages : list Lang) (readmeAsIndex : bool) (root sd l1 l2 P : string) :
  plain sd -> plain l1 -> plain l2 -> has_char "\" P = false ->
  sd <> l1 -> sd <> l2 -> ~ In sd (Js.split "/" P) ->
  In l1 languages -> In l2 languages ->
  let p := root ++ "/" ++ sd ++ "/" ++ l1 ++ "/" ++ P in
  exists info1 p2 info2,
    parseDocInfo p languages sd readmeAsIndex = Some info1
    /\ lang info1 = l1 /\ relPathWithExt info1 = P
    /\ buildTargetFileUri p l2 info1 = Some p2
    /\ p2 = toPosix root ++ "/" ++ sd ++ "/" ++ l2 ++ "/" ++ P
    /\ parseDocInfo p2 languages sd readmeAsIndex = Some info2
    /\ lang info2 = l2 /\ relPathWithExt info2 = P
    /\ buildTargetFileUri p2 l1 info2 = Some (toPosix p)
    /\ (has_char "\" root = false -> toPosix p = p).
Proof.
  intros Hsd Hl1 Hl2 HP Hne1 Hne2 HnP Hin1 Hin2 p.
  pose proof (split_doc_path sd root l1 P Hsd Hl1 HP) as Hparts. fold p in Hparts.
  pose proof (split_not_nil "/" (toPosix root)) as Hpre.
  pose proof (split_not_nil "/" P) as Hrel.
  assert (Hlast : ~ In sd (l1 :: Js.split "/" P)).
  { intros [E|E]; [congruence | now apply HnP]. }
  destruct (there_and_back languages sd readmeAsIndex p _ _ l1 l2
              Hparts Hpre Hlast Hrel Hin1 Hin2 Hl2 ltac:(congruence))
    as (info1 & p2 & info2 & H1 & H2 & H3 & H4 & H5 & H6 & H7 & H8 & H9).
  rewrite !join_split in *.
  exists info1, p2, info2. repeat split; try assumption.
  intros Hroot. apply toPosix_id. unfold p.
  destruct Hsd as [_ Hsd2]. destruct Hl1 as [_ Hl12].
  now rewrite !has_char_append, Hroot, Hsd2, Hl12, HP.
Qed.

Lemma sibling_there_and_back_witness :
  exists info1 p2 info2,
    parseDocInfo "/home/u/docs/static/zh_CN/guide/intro.md" langs3 "static" true = Some info1
    /\ lang info1 = "zh_CN" /\ relPathWithExt info1 = "guide/intro.md"
    /\ buildTargetFileUri "/home/u/docs/static/zh_CN/guide/intro.md" "ja" info1 = Some p2
    /\ p2 = "/home/u/docs/static/ja/guide/intro.md"
    /\ parseDocInfo p2 langs3 "static" true = Some info2
    /\ lang info2 = "ja" /\ relPathWithExt info2 = "guide/intro.md"
    /\ buildTargetFileUri p2 "zh_CN" info2
       = Some (toPosix "/home/u/docs/static/zh_CN/guide/intro.md")
    /\ (has_char "\" "/home/u/docs" = false ->
        toPosix "/home/u/docs/static/zh_CN/guide/intro.md"
        = "/home/u/docs/static/zh_CN/guide/intro.md").
Proof.
  apply (sibling_there_and_back langs3 true "/home/u/docs" "static" "zh_CN" "ja" "guide/intro.md");
    try (split; reflexivity); try reflexivity; try discriminate.
  - simpl. intros [E|[E|[]]]; discriminate E.
  - simpl. tauto.
  - simpl. tauto.
Defined.

(** The claim C2 as stated fails for a relative path with a segment
    named like the static directory: with [P = guide/static/intro.md]
    under [/w/static/en], both [en] and [ja] configured, the path does
    not resolve, so no sibling for [ja] is built from it. *)
Lemma there_and_back_nested_static :
  "/w/static/en/guide/static/intro.md" = "/w" ++ "/" ++ "static" ++ "/" ++ "en" ++ "/" ++ "guide/static/intro.md"
  /\ In "en" langs3 /\ In "ja" langs3
  /\ parseDocInfo "/w/static/en/guide/static/intro.md" langs3 "static" true = None.
Proof. repeat split; simpl; tauto. Qed.

(** C8, as the code has it.  When a path resolves and the sibling for a
    target language is built from the [DocInfo] it resolved to, the
    path, in the forward-slash form the code works on (the path itself
    when it holds no backslash), is [root/sd/lang/rel] and the sibling
    is [root/sd/target/rel], with the same root and the same relative
    path, extension included: only the language segment differs. *)
Theorem sibling_differs_only_in_language
  (languages : list Lang) (sd : string) (readmeAsIndex : bool)
  (p : string) (tgt : Lang) (info : DocInfo) (r : string) :
  parseDocInfo p languages sd readmeAsIndex = Some info ->
  buildTargetFileUri p tgt info = Some r ->
  exists root,
    toPosix p = root ++ "/" ++ sd ++ "/" ++ lang info ++ "/" ++ relPathWithExt info
    /\ r = root ++ "/" ++ sd ++ "/" ++ tgt ++ "/" ++ relPathWithExt info
    /\ (has_char "\" p = false -> toPosix p = p).
Proof.
  intros Hp Hb.
  destruct (parseDocInfo_inv languages sd readmeAsIndex p info Hp)
    as (pre & rel & Hparts & _ & Hrel & _ & Hr & Hs).
  destruct pre as [|x pre].
  - rewrite (buildTargetFileUri_no_root sd p rel info tgt Hparts Hrel Hr Hs) in Hb.
    discriminate Hb.
  - assert (Hpre : x :: pre <> []) by discriminate.
    rewrite (buildTargetFileUri_segments sd p _ rel info tgt Hparts Hpre Hrel Hr Hs) in Hb.
    injection Hb as <-.
    exists (Js.join "/" (x :: pre)). rewrite Hr.
    split; [now apply path_of_segments | split; [reflexivity | apply toPosix_id]].
Qed.

Lemma sibling_differs_only_in_language_witness :
  exists root,
    toPosix "C:\docs\static\en\guide\intro.md"
    = root ++ "/" ++ "static" ++ "/" ++ "en" ++ "/" ++ "guide/intro.md"
    /\ "C:/docs/static/ja/guide/intro.md"
       = root ++ "/" ++ "static" ++ "/" ++ "ja" ++ "/" ++ "guide/intro.md"
    /\ (has_char "\" "C:\docs\static\en\guide\intro.md" = false ->
        toPosix "C:\docs\static\en\guide\intro.md" = "C:\docs\static\en\guide\intro.md").
Proof.
  exact (sibling_differs_only_in_language langs3 "static" true
           "C:\docs\static\en\guide\intro.md" "ja"
           {| lang := "en"; relPathWithExt := "guide/intro.md";
              relPathNoExt := "guide/intro"; staticDir := "static" |}
           "C:/docs/static/ja/guide/intro.md" eq_refl eq_refl).
Defined.

(** The claim C8 as stated fails in two ways.  A path written with
    backslashes resolves, and its sibling comes back written with
    forward slashes: every separator differs, not only the language
    segment.  And a [DocInfo] resolved from another path is accepted
    whenever its needle occurs in the source path: with the [DocInfo] of
    [/w/static/en/a.md] the sibling of [/w/static/en/a.mdx] is built,
    and it has lost the [x] of the extension.  In neither case is the
    result the source with [en] replaced by [ja] at one place. *)
Lemma sibling_differs_beyond_language :
  (parseDocInfo "C:\docs\static\en\guide\intro.md" langs3 "static" true
   = Some {| lang := "en"; relPathWithExt := "guide/intro.md";
             relPathNoExt := "guide/intro"; staticDir := "static" |}
   /\ buildTargetFileUri "C:\docs\static\en\guide\intro.md" "ja"
        {| lang := "en"; relPathWithExt := "guide/intro.md";
           relPathNoExt := "guide/intro"; staticDir := "static" |}
      = Some "C:/docs/static/ja/guide/intro.md"
   /\ ~ (exists a b, "C:\docs\static\en\guide\intro.md" = a ++ "en" ++ b
                     /\ "C:/docs/static/ja/guide/intro.md" = a ++ "ja" ++ b))
  /\ (parseDocInfo "/w/static/en/a.md" langs3 "static" true
      = Some {| lang := "en"; relPathWithExt := "a.md";
                relPathNoExt := "a"; staticDir := "static" |}
      /\ buildTargetFileUri "/w/static/en/a.mdx" "ja"
           {| lang := "en"; relPathWithExt := "a.md";
              relPathNoExt := "a"; staticDir := "static" |}
         = Some "/w/static/ja/a.md"
      /\ ~ (exists a b, "/w/static/en/a.mdx" = a ++ "en" ++ b
                        /\ "/w/static/ja/a.md" = a ++ "ja" ++ b)).
Proof.
  split; (split; [reflexivity | split; [reflexivity|]]).
  - intros (a & b & H1 & H2).
    destruct a as [|c1 [|c2 [|c3 a]]]; simpl in H1, H2; congruence.
  - intros (a & b & H1 & H2).
    apply (f_equal String.length) in H1, H2.
    rewrite !length_append in H1, H2. simpl in H1, H2. lia.
Qed.

(** C9.  A resolved [DocInfo] carries a configured language; and when
    the segment after the last occurrence of the static directory's name
    is missing or is not a configured language, the path does not resolve
    (no default language is substituted). *)
Theorem parseDocInfo_lang_configured
  (languages : list Lang) (sd : string) (readmeAsIndex : bool) (p : string) :
  (forall info, parseDocInfo p languages sd readmeAsIndex = Some info ->
                In (lang info) languages)
  /\ (forall pre post,
        Js.split "/" (toPosix p) = (pre ++ sd :: post)%list -> ~ In sd post ->
        (forall l, nth_error post 0 = Some l -> ~ In l languages) ->
        parseDocInfo p languages sd readmeAsIndex = None).
Proof.
  split.
  - intros info Hp.
    destruct (parseDocInfo_inv languages sd readmeAsIndex p info Hp)
      as (pre & rel & _ & _ & _ & Hin & _). exact Hin.
  - intros pre post Hparts Hlast Hnot.
    destruct (parseDocInfo p languages sd readmeAsIndex) as [info|] eqn:Hp;
      [|reflexivity].
    exfalso.
    destruct (parseDocInfo_inv languages sd readmeAsIndex p info Hp)
      as (pre' & rel & Hparts' & Hlast' & _ & Hin & _).
    pose proof (last_pos_app sd pre post Hlast) as E1.
    pose proof (last_pos_app sd pre' _ Hlast') as E2.
    rewrite <- Hparts in E1. rewrite <- Hparts' in E2.
    rewrite E1 in E2. injection E2 as Elen.
    assert (Enth : nth_error (Js.split "/" (toPosix p)) (S (List.length pre))
                   = nth_error post 0) by (rewrite Hparts; apply nth_after).
    rewrite Hparts', Elen, nth_after in Enth. cbn [nth_error] in Enth.
    symmetry in Enth. exact (Hnot _ Enth Hin).
Qed.

Lemma parseDocInfo_lang_configured_witness :
  In "ja" langs3
  /\ parseDocInfo "/w/static/fr/a.md" langs3 "static" true = None.
Proof.
  destruct (parseDocInfo_lang_configured langs3 "static" true "/w/static/ja/a.md") as [H _].
  destruct (parseDocInfo_lang_configured langs3 "static" true "/w/static/fr/a.md") as [_ H'].
  split.
  - exact (H _ eq_refl).
  - apply (H' [""; "w"] ["fr"; "a.md"] eq_refl).
    + simpl. intros [E|[E|[]]]; discriminate E.
    + intros l E. injection E as <-. simpl. intros [E|[E|[E|[]]]]; discriminate E.
Defined.

(** ** URL parsing *)

Section UrlParser.

Variable new_URL : string -> option URL.
Variable languages : list Lang.

Lemma parseUrl_of_segments (urlStr : string) (u : URL) :
  new_URL urlStr = Some u ->
  parseUrlToLangAndRel new_URL urlStr languages
  = match pathSegments u with
    | l :: (_ :: _) as rest =>
        if existsb (String.eqb l) languages then Some (l, Js.join "/" rest) else None
    | _ => None
    end.
Proof.
  intros Hu. unfold parseUrlToLangAndRel. rewrite Hu. cbv zeta.
  fold (pathSegments u).
  destruct (pathSegments u) as [|l [|r rest]]; try reflexivity.
  destruct (Z.ltb_spec (Z.of_nat (List.length (l :: r :: rest))) 2) as [H|_];
    [simpl in H; lia|].
  unfold Js.at_index, Js.slice_from. cbn [Z.ltb Z.compare Z.to_nat nth_error skipn Pos.to_nat].
  cbn [Js.includes].
  now destruct (existsb (String.eqb l) languages).
Qed.

Lemma existsb_eqb_In (l : string) : existsb (String.eqb l) languages = true <-> In l languages.
Proof. exact (includes_In languages l). Qed.

End UrlParser.

(** The two answers of [parseUrlToLangAndRel] in terms of the list the
    code filters out of the path. *)
Lemma parseUrl_by_pathSegments
  (new_URL : string -> option URL) (urlStr : string) (languages : list Lang) :
  (parseUrlToLangAndRel new_URL urlStr languages = None <->
     new_URL urlStr = None
     \/ exists u, new_URL urlStr = Some u
                  /\ ((List.length (pathSegments u) < 2)%nat
                      \/ exists first, nth_error (pathSegments u) 0 = Some first
                                       /\ ~ In first languages))
  /\ (forall l rel,
        parseUrlToLangAndRel new_URL urlStr languages = Some (l, rel) <->
        exists u rest, new_URL urlStr = Some u
                       /\ pathSegments u = l :: rest /\ rest <> []
                       /\ In l languages /\ rel = Js.join "/" rest).
Proof.
  destruct (new_URL urlStr) as [u|] eqn:Hu.
  - rewrite (parseUrl_of_segments new_URL languages urlStr u Hu).
    destruct (pathSegments u) as [|l0 [|r rest]] eqn:Hsegs.
    + split.
      * split; [intros _; right; exists u; split; [reflexivity | left; rewrite Hsegs; simpl; lia] | reflexivity].
      * intros l rel. split; [discriminate|].
        intros (u' & rest' & Eu & E & _). injection Eu as <-.
        rewrite Hsegs in E. discriminate E.
    + split.
      * split; [intros _; right; exists u; split; [reflexivity | left; rewrite Hsegs; simpl; lia] | reflexivity].
      * intros l rel. split; [discriminate|].
        intros (u' & rest' & Eu & E & Hne & _). injection Eu as <-.
        rewrite Hsegs in E. injection E as _ <-. now elim Hne.
    + destruct (existsb (String.eqb l0) languages) eqn:Hin.
      * apply existsb_eqb_In in Hin. split.
        -- split; [discriminate|].
           intros [E|(u' & Eu & [Hlen|(first & Hf & Hnot)])].
           ++ discriminate E.
           ++ injection Eu as <-. rewrite Hsegs in Hlen. simpl in Hlen. lia.
           ++ injection Eu as <-. rewrite Hsegs in Hf. injection Hf as <-. now elim Hnot.
        -- intros l rel. split.
           ++ intros E. injection E as <- <-. exists u, (r :: rest).
              repeat split; try assumption. discriminate.
           ++ intros (u' & rest' & Eu & E & _ & _ & ->). injection Eu as <-.
              rewrite Hsegs in E. injection E as <- <-. reflexivity.
      * assert (Hnot : ~ In l0 languages).
        { intros H. apply existsb_eqb_In in H. congruence. }
        split.
        -- split; [|reflexivity]. intros _. right. exists u. split; [reflexivity|].
           right. exists l0. rewrite Hsegs. now split.
        -- intros l rel. split; [discriminate|].
           intros (u' & rest' & Eu & E & _ & Hl & _). injection Eu as <-.
           rewrite Hsegs in E. injection E as <- _. now elim Hnot.
  - unfold parseUrlToLangAndRel. rewrite Hu. split.
    + split; [now left | reflexivity].
    + intros l rel. split; [discriminate|].
      intros (u' & rest' & Eu & _). discriminate Eu.
Qed.

(** *** The code's segments are the specification's

    [split] on slashes followed by [filter(Boolean)] computes the
    non-empty segments of the specification, and only those; [join]
    glues them as [String.concat] of the standard library does. *)

Section NonEmptySegments.

Lemma nonEmptySegments_computed (p : string) (segs : list string) :
  nonEmptySegments p segs -> Js.filterBoolean (Js.split "/" p) = segs.
Proof.
  induction 1 as [|p segs _ IH|s Hne Hs|s p segs Hne Hs _ IH].
  - reflexivity.
  - cbn [Js.split]. rewrite Ascii.eqb_refl. exact IH.
  - rewrite (split_no_sep "/" s Hs). unfold Js.filterBoolean. cbn [filter].
    apply String.eqb_neq in Hne. now rewrite Hne.
  - rewrite split_append, (split_no_sep "/" s Hs). cbn [app].
    unfold Js.filterBoolean in *. cbn [filter].
    apply String.eqb_neq in Hne. rewrite Hne. cbn [negb]. now rewrite IH.
Qed.

Lemma nonEmptySegments_of_list (l : list string) :
  Forall (fun x => has_char "/" x = false) l ->
  nonEmptySegments (Js.join "/" l) (Js.filterBoolean l).
Proof.
  induction l as [|x l IH]; intros Hall; [constructor|].
  inversion Hall as [|? ? Hx Hl]; subst.
  specialize (IH Hl).
  destruct l as [|y l].
  - cbn [Js.join]. unfold Js.filterBoolean. cbn [filter].
    destruct (String.eqb_spec x "") as [->|Hne]; cbn [negb];
      [constructor | now apply path_last].
  - rewrite (join_cons "/" x (y :: l)) by discriminate.
    unfold Js.filterBoolean in *. cbn [filter] in *.
    destruct (String.eqb_spec x "") as [->|Hne]; cbn [negb].
    + apply path_slash. exact IH.
    + now apply path_name.
Qed.

Lemma nonEmptySegments_exist (p : string) :
  nonEmptySegments p (Js.filterBoolean (Js.split "/" p)).
Proof.
  pose proof (nonEmptySegments_of_list (Js.split "/" p) (split_elements "/" p)) as H.
  now rewrite join_split in H.
Qed.

Lemma nonEmptySegments_iff (u : URL) (segs : list string) :
  nonEmptySegments (pathname u) segs <-> pathSegments u = segs.
Proof.
  split.
  - apply nonEmptySegments_computed.
  - intros <-. apply nonEmptySegments_exist.
Qed.

Lemma concat_join (sep : string) (l : list string) : String.concat sep l = Js.join sep l.
Proof.
  induction l as [|x [|y l] IH]; [reflexivity | reflexivity |].
  change (String.concat sep (x :: y :: l)) with (x ++ sep ++ String.concat sep (y :: l)).
  now rewrite IH.
Qed.

End NonEmptySegments.

(** C6.  [parseUrlToLangAndRel] answers [null] exactly when the URL
    constructor refuses the string, or the path of the URL has fewer
    than two non-empty segments, or the first of them is not a
    configured language; and it answers [(l, rel)] exactly when the path
    reads as [l] followed by at least one more non-empty segment, [l] is
    configured, and [rel] is those remaining segments with one slash
    between any two of them.  The segments and the joining are the
    specification's ([nonEmptySegments], [String.concat]), not the
    code's. *)
Theorem parseUrl_fails_exactly
  (new_URL : string -> option URL) (urlStr : string) (languages : list Lang) :
  (parseUrlToLangAndRel new_URL urlStr languages = None <->
     new_URL urlStr = None
     \/ exists u segs, new_URL urlStr = Some u
                       /\ nonEmptySegments (pathname u) segs
                       /\ ((List.length segs < 2)%nat
                           \/ exists first, nth_error segs 0 = Some first
                                            /\ ~ In first languages))
  /\ (forall l rel,
        parseUrlToLangAndRel new_URL urlStr languages = Some (l, rel) <->
        exists u rest, new_URL urlStr = Some u
                       /\ nonEmptySegments (pathname u) (l :: rest) /\ rest <> []
                       /\ In l languages /\ rel = String.concat "/" rest).
Proof.
  destruct (parseUrl_by_pathSegments new_URL urlStr languages) as [Hnone Hsome].
  split.
  - rewrite Hnone. split.
    + intros [E|(u & Eu & H)]; [now left|].
      right. exists u, (pathSegments u).
      split; [exact Eu | split; [apply nonEmptySegments_exist | exact H]].
    + intros [E|(u & segs & Eu & Hsegs & H)]; [now left|].
      right. exists u. apply nonEmptySegments_iff in Hsegs. rewrite Hsegs.
      now split.
  - intros l rel. rewrite Hsome. split.
    + intros (u & rest & Eu & Hsegs & Hne & Hin & ->).
      exists u, rest.
      split; [exact Eu | split; [now apply nonEmptySegments_iff|]].
      split; [exact Hne | split; [exact Hin | symmetry; apply concat_join]].
    + intros (u & rest & Eu & Hsegs & Hne & Hin & ->).
      exists u, rest.
      split; [exact Eu | split; [now apply nonEmptySegments_iff|]].
      split; [exact Hne | split; [exact Hin | apply concat_join]].
Qed.

(** The two halves on the specification's own URLs: with the default
    languages, [https://docs.m5stack.com/zh_CN/a/b] gives [zh_CN] and
    [a/b], and [https://docs.m5stack.com/zh_CN], one segment, fails. *)
Lemma parseUrl_fails_exactly_witness :
  parseUrlToLangAndRel UrlRef.new_URL "https://docs.m5stack.com/zh_CN/a/b" langs3
  = Some ("zh_CN", "a/b")
  /\ parseUrlToLangAndRel UrlRef.new_URL "https://docs.m5stack.com/zh_CN" langs3 = None.
Proof.
  split.
  - apply (parseUrl_fails_exactly UrlRef.new_URL "https://docs.m5stack.com/zh_CN/a/b" langs3).
    eexists. exists ["a"; "b"].
    split; [reflexivity|].
    split; [|split; [discriminate | split; [simpl; tauto | reflexivity]]].
    apply path_slash.
    apply (path_name "zh_CN" "a/b" ["a"; "b"]); [discriminate | reflexivity |].
    apply (path_name "a" "b" ["b"]); [discriminate | reflexivity |].
    apply path_last; [discriminate | reflexivity].
  - apply (parseUrl_fails_exactly UrlRef.new_URL "https://docs.m5stack.com/zh_CN" langs3).
    right. eexists. exists ["zh_CN"].
    split; [reflexivity|].
    split; [|left; simpl; lia].
    apply path_slash. apply path_last; [discriminate | reflexivity].
Defined.

(** A relative path without empty segment starts with no slash, and
    [buildUrl] appends it as it is. *)
Lemma stripLeadingSlashes_id (rel : string) :
  Js.filterBoolean (Js.split "/" rel) = Js.split "/" rel ->
  Js.stripLeadingSlashes rel = rel.
Proof.
  intros Hrel. destruct rel as [|c r]; [reflexivity|].
  cbn [Js.stripLeadingSlashes].
  destruct (Ascii.eqb_spec c "/") as [->|_]; [|reflexivity].
  exfalso.
  assert (Hin : In "" (Js.split "/" (String "/" r))) by now left.
  rewrite <- Hrel in Hin. apply filter_In in Hin as [_ Hf]. discriminate Hf.
Qed.

(** C3, as the code has it.  For a non-empty configured language [l]
    without slash and a relative path [rel] without empty segment,
    [buildUrl] yields the base without its trailing slashes followed by
    [/l/rel]; and when the URL constructor accepts that URL with the
    path [/l/rel] (the base contributes no path segment of its own and
    the path is kept as written), parsing the built URL gives back
    [(l, rel)]. *)
Theorem parse_inverts_build
  (new_URL : string -> option URL) (languages : list Lang)
  (base : string) (l : Lang) (rel : string) (u : URL) :
  In l languages -> l <> "" -> segment l ->
  Js.filterBoolean (Js.split "/" rel) = Js.split "/" rel ->
  new_URL (buildUrl base l rel) = Some u ->
  pathname u = "/" ++ l ++ "/" ++ rel ->
  buildUrl base l rel = Js.stripTrailingSlashes base ++ "/" ++ l ++ "/" ++ rel
  /\ parseUrlToLangAndRel new_URL (buildUrl base l rel) languages = Some (l, rel).
Proof.
  intros Hin Hne Hseg Hrel Hu Hpath. split.
  { unfold buildUrl. cbv zeta. now rewrite (stripLeadingSlashes_id rel Hrel). }
  rewrite (parseUrl_of_segments new_URL languages _ u Hu).
  unfold pathSegments. rewrite Hpath.
  change ("/" ++ l ++ "/" ++ rel) with ("" ++ String "/" (l ++ String "/" rel)).
  rewrite !split_append, (split_no_sep "/" l Hseg).
  cbn [Js.split app]. unfold Js.filterBoolean in *.
  cbn [filter String.eqb negb].
  apply String.eqb_neq in Hne. rewrite Hne. cbn [negb]. rewrite Hrel.
  pose proof (split_not_nil "/" rel) as Hn.
  destruct (Js.split "/" rel) as [|r rest] eqn:E; [now elim Hn|].
  apply existsb_eqb_In in Hin. rewrite Hin.
  now rewrite <- E, join_split.
Qed.

Lemma parse_inverts_build_witness :
  buildUrl "https://docs.m5stack.com/" "zh_CN" "a/b" = "https://docs.m5stack.com/zh_CN/a/b"
  /\ parseUrlToLangAndRel UrlRef.new_URL (buildUrl "https://docs.m5stack.com/" "zh_CN" "a/b") langs3
     = Some ("zh_CN", "a/b").
Proof.
  refine (parse_inverts_build UrlRef.new_URL langs3 "https://docs.m5stack.com/" "zh_CN" "a/b"
            _ _ _ _ eq_refl eq_refl eq_refl).
  - simpl. tauto.
  - discriminate.
  - reflexivity.
Defined.

(** The claim C3 as stated fails for a base URL that has a path: built
    on [https://docs.m5stack.com/docs] the URL's first path segment is
    [docs], not the language, and the parser answers [null]. *)
Lemma parse_build_base_with_path :
  buildUrl "https://docs.m5stack.com/docs" "zh_CN" "a/b" = "https://docs.m5stack.com/docs/zh_CN/a/b"
  /\ In "zh_CN" langs3
  /\ option_map pathname (UrlRef.new_URL "https://docs.m5stack.com/docs/zh_CN/a/b")
     = Some "/docs/zh_CN/a/b"
  /\ parseUrlToLangAndRel UrlRef.new_URL
       (buildUrl "https://docs.m5stack.com/docs" "zh_CN" "a/b") langs3 = None.
Proof. repeat split. simpl. tauto. Qed.

(** ** The LAN address and the preview base *)

Section LanAddress.

Lemma find_append {A : Type} (P : A -> bool) (a b : list A) :
  find P (a ++ b)%list = match find P a with Some x => Some x | None => find P b end.
Proof.
  induction a as [|x a IH]; simpl; [reflexivity|].
  destruct (P x); [reflexivity | exact IH].
Qed.

Lemma find_first {A : Type} (P : A -> bool) (l : list A) (f : A) :
  find P l = Some f <-> first_such P l f.
Proof.
  induction l as [|x l IH]; simpl.
  - split; [discriminate|]. intros (before & after & E & _).
    destruct before; discriminate E.
  - destruct (P x) eqn:Px.
    + split.
      * intros E. injection E as <-. exists [], l. repeat split; [exact Px|].
        intros g [].
      * intros (before & after & E & Pf & Hb).
        destruct before as [|y before].
        -- injection E as <- _. reflexivity.
        -- injection E as <- _. rewrite (Hb x (or_introl eq_refl)) in Px. discriminate Px.
    + rewrite IH. split.
      * intros (before & after & -> & Pf & Hb).
        exists (x :: before), after. repeat split; [exact Pf|].
        intros g [<-|Hg]; [exact Px | now apply Hb].
      * intros (before & after & E & Pf & Hb).
        destruct before as [|y before].
        -- injection E as <- _. rewrite Pf in Px. discriminate Px.
        -- injection E as <- ->. exists before, after. repeat split; [exact Pf|].
           intros g Hg. apply Hb. now right.
Qed.

Lemma find_none {A : Type} (P : A -> bool) (l : list A) :
  find P l = None <-> forall g, In g l -> P g = false.
Proof.
  induction l as [|x l IH]; simpl.
  - split; [intros _ g [] | reflexivity].
  - destruct (P x) eqn:Px.
    + split; [discriminate|]. intros H. rewrite (H x (or_introl eq_refl)) in Px.
      discriminate Px.
    + rewrite IH. split.
      * intros H g [<-|Hg]; [exact Px | now apply H].
      * intros H g Hg. apply H. now right.
Qed.

(** The inner loop returns the first 192.168.* address among the
    eligible ones, or else appends them all to the fallbacks. *)
Lemma scanAddrs_spec (addrs : list NetworkInterfaceInfo) (fallbacks : list string) :
  scanAddrs addrs fallbacks
  = match find in192 (map address (filter eligible addrs)) with
    | Some ip => inl ip
    | None => inr (fallbacks ++ map address (filter eligible addrs))%list
    end.
Proof.
  revert fallbacks; induction addrs as [|a addrs IH]; intros fallbacks; simpl.
  - now rewrite app_nil_r.
  - fold (eligible a). destruct (eligible a); [|apply IH].
    simpl. fold (in192 (address a)).
    destruct (in192 (address a)); [reflexivity|].
    rewrite IH. destruct (find in192 _); [reflexivity|].
    now rewrite <- app_assoc.
Qed.

Lemma scanIfs_spec (ifs : list (string * option (list NetworkInterfaceInfo)))
  (fallbacks : list string) :
  scanIfs ifs fallbacks
  = match find in192 (candidates ifs) with
    | Some ip => inl ip
    | None => inr (fallbacks ++ candidates ifs)%list
    end.
Proof.
  revert fallbacks; induction ifs as [|[nm addrs] ifs IH]; intros fallbacks.
  - simpl. now rewrite app_nil_r.
  - cbn [scanIfs candidates flat_map snd]. rewrite scanAddrs_spec, find_append.
    destruct (find in192 (map address (filter eligible _))); [reflexivity|].
    rewrite IH. fold (candidates ifs).
    destruct (find in192 (candidates ifs)); [reflexivity|].
    now rewrite <- app_assoc.
Qed.

(** The code implements the specification's selection policy. *)
Lemma getLanIPv4Prefer192_policy (ifs : list (string * option (list NetworkInterfaceInfo))) :
  getLanIPv4Prefer192 ifs = lanPolicy (candidates ifs).
Proof.
  unfold getLanIPv4Prefer192, lanPolicy. rewrite scanIfs_spec.
  now destruct (find in192 (candidates ifs)).
Qed.

End LanAddress.

(** C5, as the code has it.  [getLanIPv4Prefer192] returns the first
    non-internal IPv4 address in 192.168.* when there is one, otherwise
    the first non-internal IPv4 address, and none exactly when there is
    no such address.  On a base the URL constructor accepts (as a URL
    with a path of segments, which every URL with a host is), with a
    loopback host, [patchBaseHost] given that address [h] (a host the
    setter stores as it is) returns the base's URL with [h] in the place
    of the host, protocol, credentials, port, path, query and fragment
    as they were, serialized and stripped of trailing slashes; with no
    address it makes no substitution and returns the serialization of
    the base's URL stripped of trailing slashes. *)
Theorem lan_substitution
  (parse_host : string -> option string) (new_URL : string -> option URL)
  (ifs : list (string * option (list NetworkInterfaceInfo))) (base : string) (u : URL) :
  new_URL base = Some u -> opaquePath u = false ->
  (forall ip, In ip (candidates ifs) -> in192 ip = true ->
     exists ip', getLanIPv4Prefer192 ifs = Some ip' /\ first_such in192 (candidates ifs) ip')
  /\ ((forall ip, In ip (candidates ifs) -> in192 ip = false) ->
      getLanIPv4Prefer192 ifs = nth_error (candidates ifs) 0)
  /\ (getLanIPv4Prefer192 ifs = None <-> candidates ifs = [])
  /\ (forall h, getLanIPv4Prefer192 ifs = Some h -> h <> "" -> parse_host h = Some h ->
      loopback u ->
      URL_toString u
      = protocol u ++ "//" ++ credentials u ++ hostname u ++ portSuffix u
        ++ pathname u ++ search u ++ hash u
      /\ patchBaseHost parse_host new_URL base (getLanIPv4Prefer192 ifs)
         = Js.stripTrailingSlashes
             (protocol u ++ "//" ++ credentials u ++ h ++ portSuffix u
              ++ pathname u ++ search u ++ hash u))
  /\ (getLanIPv4Prefer192 ifs = None ->
      patchBaseHost parse_host new_URL base (getLanIPv4Prefer192 ifs)
      = Js.stripTrailingSlashes (URL_toString u)).
Proof.
  intros Hu Hop. rewrite getLanIPv4Prefer192_policy. unfold lanPolicy.
  split; [|split; [|split; [|split]]].
  - intros ip Hin H192.
    destruct (find in192 (candidates ifs)) as [ip'|] eqn:E.
    + exists ip'. split; [reflexivity | now apply find_first].
    + rewrite (proj1 (find_none _ _) E ip Hin) in H192. discriminate H192.
  - intros Hnone. apply find_none in Hnone. now rewrite Hnone.
  - split.
    + destruct (find in192 (candidates ifs)) as [ip'|] eqn:E; [discriminate|].
      destruct (candidates ifs); [reflexivity | discriminate].
    + intros ->. reflexivity.
  - intros h Hlan Hne Hhost Hloop.
    assert (Hh : exists h0, host u = Some h0).
    { unfold loopback, hostname in Hloop.
      destruct (host u) as [h0|]; [now exists h0 | destruct Hloop; discriminate]. }
    destruct Hh as (h0 & Hh0). split.
    + unfold URL_toString, hostname. rewrite Hh0. now rewrite !append_assoc.
    + unfold patchBaseHost. rewrite Hu, Hlan.
      unfold truthy. apply String.eqb_neq in Hne. rewrite Hne. cbn [negb andb].
      assert (Hlb : String.eqb (hostname u) "127.0.0.1" || String.eqb (hostname u) "localhost"
                    = true).
      { destruct Hloop as [-> | ->]; [reflexivity | apply orb_true_r]. }
      rewrite Hlb. unfold set_hostname. rewrite Hop, Hhost.
      unfold URL_toString. cbn [host protocol pathname search hash].
      unfold credentials, portSuffix. cbn [username password port].
      now rewrite !append_assoc.
  - intros E. unfold patchBaseHost. now rewrite Hu, E.
Qed.

(** The default preview base with the interfaces of the specification's
    example: the 192.168.* address wins over an earlier 10.* one. *)
Lemma lan_substitution_witness :
  patchBaseHost UrlRef.parse_host UrlRef.new_URL "http://127.0.0.1:3000"
    (getLanIPv4Prefer192
       [("lo", Some [{| address := "127.0.0.1"; family := "IPv4"; internal := true |}]);
        ("eth0", Some [{| address := "fe80::1"; family := "IPv6"; internal := false |};
                       {| address := "10.0.0.5"; family := "IPv4"; internal := false |}]);
        ("wlan0", Some [{| address := "192.168.1.23"; family := "IPv4"; internal := false |}])])
  = "http://192.168.1.23:3000".
Proof.
  pose (ifs := [("lo", Some [{| address := "127.0.0.1"; family := "IPv4"; internal := true |}]);
        ("eth0", Some [{| address := "fe80::1"; family := "IPv6"; internal := false |};
                       {| address := "10.0.0.5"; family := "IPv4"; internal := false |}]);
        ("wlan0", Some [{| address := "192.168.1.23"; family := "IPv4"; internal := false |}])]).
  destruct (lan_substitution UrlRef.parse_host UrlRef.new_URL ifs "http://127.0.0.1:3000"
              {| protocol := "http:"; username := ""; password := "";
                 host := Some "127.0.0.1"; port := "3000"; pathname := "/";
                 search := ""; hash := ""; opaquePath := false |} eq_refl eq_refl)
    as (_ & _ & _ & Hsub & _).
  destruct (Hsub "192.168.1.23" eq_refl ltac:(discriminate) eq_refl (or_introl eq_refl))
    as (_ & Hres).
  exact Hres.
Defined.

(** The claim C5 as stated fails in its last clause: with no address
    the base is not returned as it is, but parsed, serialized and
    stripped of trailing slashes.  A base written with a trailing slash
    loses it. *)
Lemma lan_none_base_normalized :
  getLanIPv4Prefer192 [] = None
  /\ patchBaseHost UrlRef.parse_host UrlRef.new_URL "http://127.0.0.1:3000/"
       (getLanIPv4Prefer192 []) = "http://127.0.0.1:3000"
  /\ "http://127.0.0.1:3000" <> "http://127.0.0.1:3000/".
Proof. repeat split. discriminate. Qed.

(** C10.  On a base the URL constructor refuses, [patchBaseHost]
    returns the base itself, whatever the LAN address; a result that
    differs from the base therefore comes from an accepted base. *)
Theorem patchBaseHost_unparseable
  (parse_host : string -> option string) (new_URL : string -> option URL)
  (base : string) (lan : option string) :
  new_URL base = None ->
  patchBaseHost parse_host new_URL base lan = base.
Proof. intros H. unfold patchBaseHost. now rewrite H. Qed.

Lemma patchBaseHost_unparseable_witness :
  patchBaseHost UrlRef.parse_host UrlRef.new_URL "not a url" (Some "192.168.1.23") = "not a url".
Proof.
  exact (patchBaseHost_unparseable UrlRef.parse_host UrlRef.new_URL "not a url"
           (Some "192.168.1.23") eq_refl).
Defined.

(** ** Choosing the documentation workspace *)

Section WorkspacePicker.

Variable joinPath : string -> list string -> string.
Variable exists_ : string -> bool.
Variable staticDir : string.

Lemma pick_by_name (folders : list WorkspaceFolder) (languages : list Lang)
  (n : string) (f : WorkspaceFolder) :
  n <> "" -> find (named n) folders = Some f ->
  pickDocsWorkspace joinPath exists_ folders staticDir languages (Some n)
  = Returns (Some f).
Proof.
  intros Hn Hf. unfold pickDocsWorkspace.
  destruct folders as [|g folders]; [discriminate Hf|].
  destruct (Z.eqb_spec (Z.of_nat (List.length (g :: folders))) 0) as [E|_];
    [simpl in E; lia|].
  unfold truthy. apply String.eqb_neq in Hn. rewrite Hn. cbn [negb].
  fold (named n). now rewrite Hf.
Qed.

Lemma pick_without_name (folders : list WorkspaceFolder) (languages : list Lang)
  (preferredName : option string) (g : WorkspaceFolder) (l0 : Lang) :
  In g folders ->
  noNameMatch preferredName folders ->
  nth_error languages 0 = Some l0 ->
  pickDocsWorkspace joinPath exists_ folders staticDir languages preferredName
  = match find (looksLikeDocs joinPath exists_ staticDir l0) folders with
    | Some f => Returns (Some f)
    | None => Returns (nth_error folders 0)
    end.
Proof.
  intros Hg Hname Hl0. unfold pickDocsWorkspace, looksLikeDocs.
  destruct (Z.eqb_spec (Z.of_nat (List.length folders)) 0) as [E|_].
  { destruct folders; [destruct Hg | simpl in E; lia]. }
  assert (Hby : (if truthy preferredName
                 then find (fun f => String.eqb (name f)
                               match preferredName with Some n => n | None => "" end) folders
                 else None) = None).
  { destruct Hname as [-> | (n & -> & Hnone)]; [reflexivity|].
    destruct (truthy (Some n)); [|reflexivity].
    now apply find_none. }
  rewrite Hby, Hl0. reflexivity.
Qed.

End WorkspacePicker.

(** C7.  [pickDocsWorkspace] returns the first folder called by the
    preferred name when there is one, whatever the folders contain;
    failing that, with a first configured language [l0], the first folder
    holding [staticDir/l0]; failing that, the first folder.  It returns
    none exactly when no folder is open. *)
Theorem pickDocsWorkspace_order
  (joinPath : string -> list string -> string) (exists_ : string -> bool)
  (folders : list WorkspaceFolder) (staticDir : string) (languages : list Lang)
  (preferredName : option string) :
  let pick := pickDocsWorkspace joinPath exists_ folders staticDir languages preferredName in
  let looksLike := looksLikeDocs joinPath exists_ staticDir in
  (pick = Returns None <-> folders = [])
  /\ (forall n f, preferredName = Some n -> n <> "" ->
        first_such (named n) folders f -> pick = Returns (Some f))
  /\ (forall l0 f, noNameMatch preferredName folders -> nth_error languages 0 = Some l0 ->
        first_such (looksLike l0) folders f -> pick = Returns (Some f))
  /\ (forall l0 f, noNameMatch preferredName folders -> nth_error languages 0 = Some l0 ->
        (forall g, In g folders -> looksLike l0 g = false) ->
        nth_error folders 0 = Some f -> pick = Returns (Some f)).
Proof.
  intros pick looksLike. split; [|split; [|split]].
  - split.
    + unfold pick, pickDocsWorkspace.
      destruct folders as [|g folders']; [reflexivity|].
      destruct (Z.eqb_spec (Z.of_nat (List.length (g :: folders'))) 0) as [E|_];
        [simpl in E; lia|].
      destruct (if truthy preferredName then _ else None); [discriminate|].
      destruct (nth_error languages 0); [|discriminate].
      destruct (find _ (g :: folders')); discriminate.
    + intros ->. reflexivity.
  - intros n f -> Hn Hf. apply find_first in Hf.
    now apply pick_by_name.
  - intros l0 f Hname Hl0 Hf.
    assert (Hin : In f folders).
    { destruct Hf as (before & after & -> & _). apply in_or_app. right. now left. }
    apply find_first in Hf. unfold pick.
    rewrite (pick_without_name joinPath exists_ staticDir folders languages
               preferredName f l0 Hin Hname Hl0).
    fold looksLike. now rewrite Hf.
  - intros l0 f Hname Hl0 Hnone Hfirst.
    assert (Hin : In f folders).
    { destruct folders; [discriminate Hfirst|]. injection Hfirst as ->. now left. }
    apply find_none in Hnone. unfold pick.
    rewrite (pick_without_name joinPath exists_ staticDir folders languages
               preferredName f l0 Hin Hname Hl0).
    fold looksLike. now rewrite Hnone, Hfirst.
Qed.

(** Folders [A, B], both holding [static/zh_CN], preferred name that of
    [B]: [B] is chosen. *)
Lemma pickDocsWorkspace_order_witness :
  pickDocsWorkspace (fun u segs => Js.join "/" (u :: segs)) (fun _ => true)
    [{| name := "site"; uri := "/w/site" |}; {| name := "nuxt-m5-docs"; uri := "/w/nuxt-m5-docs" |}]
    "static" langs3 (Some "nuxt-m5-docs")
  = Returns (Some {| name := "nuxt-m5-docs"; uri := "/w/nuxt-m5-docs" |}).
Proof.
  destruct (pickDocsWorkspace_order (fun u segs => Js.join "/" (u :: segs)) (fun _ => true)
    [{| name := "site"; uri := "/w/site" |}; {| name := "nuxt-m5-docs"; uri := "/w/nuxt-m5-docs" |}]
    "static" langs3 (Some "nuxt-m5-docs")) as (_ & Hname & _).
  apply (Hname "nuxt-m5-docs" _ eq_refl); [discriminate|].
  exists [{| name := "site"; uri := "/w/site" |}], [].
  repeat split. intros g [<-|[]]. reflexivity.
Defined.

(** ** README as the index of its directory *)

Section ReadmeIndex.

Variable languages : list Lang.
Variable sd : string.

Lemma endsWith_suffix (d suf : string) : Js.endsWith (d ++ suf) suf = true.
Proof.
  induction d as [|c d IH]; cbn [append Js.endsWith].
  - destruct suf as [|x suf]; cbn [Js.endsWith]; [reflexivity|].
    now rewrite String.eqb_refl.
  - rewrite IH. apply orb_true_r.
Qed.

Lemma dropSuffix_suffix (d suf : string) : suf <> "" -> Js.dropSuffix suf (d ++ suf) = d.
Proof.
  intros Hne. induction d as [|c d IH].
  - destruct suf as [|x suf]; [now elim Hne|].
    cbn [append Js.dropSuffix]. now rewrite String.eqb_refl.
  - cbn [append Js.dropSuffix].
    destruct (String.eqb_spec (String c (d ++ suf)) suf) as [E|_].
    + apply (f_equal String.length) in E. cbn [String.length] in E.
      rewrite length_append in E. lia.
    + now rewrite IH.
Qed.

(** The [relPathNoExt] of a resolved path, from its [relPathWithExt]. *)
Lemma parseDocInfo_noExt (p : string) (readmeAsIndex : bool) (info : DocInfo) :
  parseDocInfo p languages sd readmeAsIndex = Some info ->
  relPathNoExt info
  = if readmeAsIndex && Js.endsWith (stripExt (relPathWithExt info)) "/README"
    then Js.dropSuffix "/README" (stripExt (relPathWithExt info))
    else stripExt (relPathWithExt info).
Proof.
  unfold parseDocInfo. cbv zeta.
  destruct (Js.lastIndexOf _ sd <? 0); [discriminate|].
  destruct (negb (Js.includes languages _)); [discriminate|].
  destruct (Z.of_nat (List.length _) =? 0); [discriminate|].
  destruct (Js.at_index _ _) as [l|]; [|discriminate].
  intros H. injection H as <-. reflexivity.
Qed.

(** With the option on, a README below a directory gives that
    directory. *)
Lemma readme_in_directory (p : string) (info : DocInfo) (dir : string) :
  parseDocInfo p languages sd true = Some info ->
  stripExt (relPathWithExt info) = dir ++ "/README" ->
  relPathNoExt info = dir.
Proof.
  intros Hp Hno. rewrite (parseDocInfo_noExt p true info Hp), Hno.
  rewrite endsWith_suffix. cbn [andb].
  now apply dropSuffix_suffix.
Qed.

(** With the option off, nothing but the extension is removed. *)
Lemma readme_kept_when_disabled (p : string) (info : DocInfo) :
  parseDocInfo p languages sd false = Some info ->
  relPathNoExt info = stripExt (relPathWithExt info).
Proof. intros Hp. now rewrite (parseDocInfo_noExt p false info Hp). Qed.

(** With the option on, a README directly below the language
    directory keeps its name: ["README"] does not end with
    ["/README"]. *)
Lemma readme_below_language (p : string) (info : DocInfo) :
  parseDocInfo p languages sd true = Some info ->
  stripExt (relPathWithExt info) = "README" ->
  relPathNoExt info = "README".
Proof. intros Hp Hno. now rewrite (parseDocInfo_noExt p true info Hp), Hno. Qed.

End ReadmeIndex.

(** C4 at [static/en/README.md], README-as-index on: the code keeps the
    segment [README], where the claim has it removed. *)
Theorem readme_directly_under_language :
  parseDocInfo "/w/static/en/README.md" langs3 "static" true
  = Some {| lang := "en"; relPathWithExt := "README.md";
            relPathNoExt := "README"; staticDir := "static" |}.
Proof. reflexivity. Qed.


(** ** The extension of a path is that of its last segment *)

(** Case analysis on every integer comparison of the goal. *)
Ltac zcase :=
  repeat match goal with
         | |- context [Z.eqb ?a ?b] => destruct (Z.eqb_spec a b); simpl in *; try lia
         end.

Section Extname.

Import NodePath.

Variable k : Z.
Hypothesis k_pos : 0 < k.
Variable len : Z.

Ltac step_done :=
  eexists; split;
  [ reflexivity
  | simpl; zcase;
    (split;
     [ do 2 f_equal; lia
     | split;
       [ split;
         [ assumption
         | right; split; [lia | split; [reflexivity | first [left; reflexivity | right; lia]]] ]
       | reflexivity ] ]) ].

Lemma ext_step_shift (i : Z) (c : ascii) (st : scan) :
  c <> "/"%char -> 0 <= i -> scanning len (i + 1) st -> i + 1 <= len ->
  exists st1,
    ext_step i c st = inr st1
    /\ ext_step (i + k) c (shifted k st) = inr (shifted k st1)
    /\ scanning len i st1
    /\ matchedSlash st1 = false.
Proof.
  intros Hc Hi (Hsp & Hst) Hlen.
  apply Ascii.eqb_neq in Hc.
  destruct st as [sD sP e mS pD]. simpl in *.
  unfold ext_step, shifted, scanning. simpl. rewrite Hc.
  destruct Hst as [(-> & -> & -> & Hn) | ((He1 & He2) & -> & Hd)]; simpl.
  - destruct (Ascii.eqb c "."); simpl; zcase; step_done.
  - destruct Hd as [->|Hd]; destruct (Ascii.eqb c "."); simpl; zcase; simpl; step_done.
Qed.

End Extname.

Section ExtnameOfSegment.

Import NodePath.

Variable d name : string.
Hypothesis name_segment : has_char "/" name = false.

Local Abbreviation k := (Z.of_nat (S (String.length d))).

(** The characters of the name are found behind the prefix [d/]. *)
Lemma get_behind (c : ascii) (n : nat) :
  String.get (n + S (String.length d)) (d ++ String c name) = String.get n name.
Proof.
  induction d as [|x a IH]; simpl.
  - now rewrite Nat.add_1_r.
  - rewrite Nat.add_succ_r. exact IH.
Qed.

Lemma get_separator (c : ascii) :
  String.get (String.length d) (d ++ String c name) = Some c.
Proof. induction d as [|x a IH]; simpl; [reflexivity | exact IH]. Qed.

Lemma substring_behind (c : ascii) (n m : nat) :
  substring (n + S (String.length d)) m (d ++ String c name) = substring n m name.
Proof.
  induction d as [|x a IH]; simpl.
  - now rewrite Nat.add_1_r.
  - rewrite Nat.add_succ_r. exact IH.
Qed.

Lemma get_no_slash (s : string) (n : nat) (c : ascii) :
  has_char "/" s = false -> String.get n s = Some c -> c <> "/"%char.
Proof.
  revert n; induction s as [|x s IH]; intros n Hs Hg; [discriminate Hg|].
  simpl in Hs. apply orb_false_elim in Hs as [Hx Hs'].
  destruct n as [|n]; simpl in Hg.
  - injection Hg as <-. now apply Ascii.eqb_neq.
  - exact (IH n Hs' Hg).
Qed.

Lemma get_in_range (s : string) (n : nat) :
  (n < String.length s)%nat -> exists c, String.get n s = Some c.
Proof.
  revert n; induction s as [|x s IH]; intros n Hn; simpl in Hn; [lia|].
  destruct n as [|n]; simpl; [now exists x | apply IH; lia].
Qed.

(** Scanning [d/name] from its end goes through the same states as
    scanning [name], shifted, and stops at the slash. *)
Lemma ext_loop_shift (n : nat) (st : scan) :
  (n <= String.length name)%nat ->
  scanning (Js.len name) (Z.of_nat n) st ->
  (n = O -> matchedSlash st = false) ->
  ext_loop (d ++ String "/" name) (n + S (String.length d)) (shifted k st)
  = {| startDot := startDot (shifted k (ext_loop name n st));
       startPart := k;
       end_ := end_ (shifted k (ext_loop name n st));
       matchedSlash := matchedSlash (ext_loop name n st);
       preDotState := preDotState (ext_loop name n st) |}
  /\ scanning (Js.len name) 0 (ext_loop name n st).
Proof.
  revert st; induction n as [|i IH]; intros st Hn Hsc Hms.
  - cbn [Nat.add ext_loop]. rewrite get_separator.
    unfold ext_step. rewrite Ascii.eqb_refl.
    cbn [shifted matchedSlash]. rewrite (Hms eq_refl). cbn [negb].
    split; [|exact Hsc].
    cbn [startDot end_ preDotState matchedSlash]. f_equal. lia.
  - destruct (get_in_range name i ltac:(lia)) as (c & Hget).
    pose proof (get_no_slash name i c name_segment Hget) as Hc.
    assert (Hsc' : scanning (Js.len name) (Z.of_nat i + 1) st).
    { now replace (Z.of_nat i + 1) with (Z.of_nat (S i)) by lia. }
    destruct (ext_step_shift k ltac:(lia) (Js.len name) (Z.of_nat i) c st
                Hc ltac:(lia) Hsc' ltac:(unfold Js.len; lia))
      as (st1 & Hs1 & Hs2 & Hsc1 & Hms1).
    cbn [Nat.add ext_loop]. rewrite get_behind, Hget, Hs1.
    replace (Z.of_nat (i + S (String.length d))) with (Z.of_nat i + k) by lia.
    rewrite Hs2. apply IH; [lia | exact Hsc1 | intros _; exact Hms1].
Qed.

Lemma slice_behind (x y : Z) :
  0 <= x <= y -> y <= Js.len name ->
  Js.slice (d ++ String "/" name) (x + k) (y + k) = Js.slice name x y.
Proof.
  intros Hxy Hy. unfold Js.slice, Js.rel_index, Js.len in *.
  rewrite length_append. cbn [String.length].
  destruct (Z.ltb_spec (x + k) 0); [lia|].
  destruct (Z.ltb_spec (y + k) 0); [lia|].
  destruct (Z.ltb_spec x 0); [lia|].
  destruct (Z.ltb_spec y 0); [lia|].
  rewrite !Z.min_l by lia.
  replace (Z.to_nat (x + k)) with (Z.to_nat x + S (String.length d))%nat by lia.
  replace (y + k - (x + k)) with (y - x) by lia.
  apply substring_behind.
Qed.

(** The extension of [d/name] is the extension of [name]. *)
Lemma extname_last_segment :
  name <> "" -> extname (d ++ String "/" name) = extname name.
Proof.
  intros Hne.
  assert (Hsc0 : scanning (Js.len name) (Z.of_nat (String.length name)) scan0).
  { split; [reflexivity|]. left. now repeat split. }
  assert (Hn0 : String.length name = O -> matchedSlash scan0 = false).
  { intros E. destruct name; [now elim Hne | discriminate E]. }
  destruct (ext_loop_shift (String.length name) scan0 (le_n _) Hsc0 Hn0) as (HL & Hfin).
  change (shifted k scan0) with scan0 in HL.
  unfold extname.
  replace (String.length (d ++ String "/" name))
    with (String.length name + S (String.length d))%nat
    by (rewrite length_append; cbn [String.length]; lia).
  rewrite HL.
  cbv zeta. cbn [startDot startPart end_ preDotState].
  destruct (ext_loop name (String.length name) scan0) as [sD sP e mS pD].
  destruct Hfin as (HsP & Hst). cbn [startDot startPart end_ matchedSlash preDotState shifted] in *.
  subst sP.
  destruct Hst as [(-> & -> & _) | ((He1 & He2) & _ & [->|HsD])]; try reflexivity.
  assert (Hk : 0 < k) by lia.
  destruct (Z.eqb_spec sD (-1)) as [E|_]; [lia|].
  destruct (Z.eqb_spec e (-1)) as [E|_]; [lia|].
  destruct (Z.eqb_spec (sD + k) (-1)) as [E|_]; [lia|].
  destruct (Z.eqb_spec (e + k) (-1)) as [E|_]; [lia|].
  cbn [orb].
  replace (sD + k =? e + k - 1) with (sD =? e - 1)
    by (destruct (Z.eqb_spec sD (e - 1)), (Z.eqb_spec (sD + k) (e + k - 1)); lia).
  replace (sD + k =? k + 1) with (sD =? 0 + 1)
    by (destruct (Z.eqb_spec sD (0 + 1)), (Z.eqb_spec (sD + k) (k + 1)); lia).
  destruct ((pD =? 0) || (pD =? 1) && (sD =? e - 1) && (sD =? 0 + 1)); [reflexivity|].
  apply slice_behind; lia.
Qed.

End ExtnameOfSegment.

(** ** README as the index of its directory: whole paths *)

Section ReadmeNormalization.

Variable languages : list Lang.
Variable sd : string.

(** Stripping the extension of [dir/README.ext] leaves [dir/README]. *)
Lemma stripExt_readme (dir ext : string) :
  has_char "/" ext = false -> NodePath.extname ("README" ++ ext) = ext ->
  stripExt (dir ++ "/README" ++ ext) = dir ++ "/README".
Proof.
  intros Hseg Hext. unfold stripExt.
  change (dir ++ "/README" ++ ext) with (dir ++ String "/" ("README" ++ ext)).
  rewrite extname_last_segment, Hext by (exact Hseg || discriminate).
  change (dir ++ String "/" ("README" ++ ext)) with (dir ++ "/README" ++ ext).
  rewrite <- append_assoc.
  replace (Js.len ((dir ++ "/README") ++ ext) - Js.len ext) with (Js.len (dir ++ "/README")).
  - apply slice_head.
  - unfold Js.len. rewrite (length_append (dir ++ "/README") ext). lia.
Qed.

(** The specification's README normalization, for every directory:
    [root/sd/l/dir/README.md] resolves to the relative path [dir] with
    the option on, and to [dir/README] with it off. *)
Lemma readme_normalization (root l dir : string) (readmeAsIndex : bool) :
  plain sd -> plain l -> has_char "\" dir = false ->
  sd <> l -> ~ In sd (Js.split "/" dir) -> sd <> "README.md" ->
  In l languages ->
  exists info,
    parseDocInfo (root ++ "/" ++ sd ++ "/" ++ l ++ "/" ++ dir ++ "/README.md")
      languages sd readmeAsIndex = Some info
    /\ lang info = l
    /\ relPathWithExt info = dir ++ "/README.md"
    /\ relPathNoExt info = if readmeAsIndex then dir else dir ++ "/README".
Proof.
  intros Hsd Hl Hdir Hne Hnd Hnr Hin.
  assert (HP : has_char "\" (dir ++ "/README.md") = false).
  { now rewrite has_char_append, Hdir. }
  pose proof (split_doc_path sd root l (dir ++ "/README.md") Hsd Hl HP) as Hparts.
  assert (Hlast : ~ In sd (l :: Js.split "/" (dir ++ "/README.md"))).
  { change (dir ++ "/README.md") with (dir ++ String "/" "README.md").
    rewrite split_append. intros [E|E]; [congruence|].
    apply in_app_or in E as [E|[E|[]]]; [now apply Hnd | congruence]. }
  destruct (parseDocInfo_segments languages sd readmeAsIndex _ _ _ l Hparts Hlast
              (split_not_nil "/" _) Hin) as (info & Hp & Hli & Hr & _).
  rewrite join_split in Hr.
  exists info. repeat split; try assumption.
  pose proof (stripExt_readme dir ".md" eq_refl eq_refl) as Hstrip.
  change (dir ++ "/README" ++ ".md") with (dir ++ "/README.md") in Hstrip.
  destruct readmeAsIndex.
  - apply (readme_in_directory languages sd _ info dir Hp). now rewrite Hr.
  - rewrite (readme_kept_when_disabled languages sd _ info Hp). now rewrite Hr.
Qed.

End ReadmeNormalization.

(** * Further properties of the code *)

(** ** Paths in forward-slash form *)

(** X1.  [toPosix] leaves no backslash, keeps the length, changes
    nothing on a second application, and treats the Windows and the
    forward-slash spelling of a path alike in [parseDocInfo] and
    [buildTargetFileUri]. *)
Theorem toPosix_normalizes
  (p : string) (languages : list Lang) (sd : string) (readmeAsIndex : bool)
  (tgt : Lang) (info : DocInfo) :
  has_char "\" (toPosix p) = false
  /\ String.length (toPosix p) = String.length p
  /\ toPosix (toPosix p) = toPosix p
  /\ parseDocInfo (toPosix p) languages sd readmeAsIndex
     = parseDocInfo p languages sd readmeAsIndex
  /\ buildTargetFileUri (toPosix p) tgt info = buildTargetFileUri p tgt info.
Proof.
  split; [apply toPosix_no_backslash|].
  split; [induction p as [|c p IH]; simpl; congruence|].
  split; [apply toPosix_idem|].
  unfold parseDocInfo, buildTargetFileUri. now rewrite toPosix_idem.
Qed.

(** ** Which paths resolve *)


(** X3.  The end of the path: [root/sd/l] with nothing after the
    language does not resolve, and [root/sd/l/] with a trailing slash
    resolves to the empty relative path. *)
Theorem parseDocInfo_at_language_directory
  (languages : list Lang) (sd : string) (readmeAsIndex : bool) (root : string) (l : Lang) :
  plain sd -> plain l -> sd <> "" -> sd <> l -> In l languages ->
  parseDocInfo (root ++ "/" ++ sd ++ "/" ++ l) languages sd readmeAsIndex = None
  /\ parseDocInfo (root ++ "/" ++ sd ++ "/" ++ l ++ "/") languages sd readmeAsIndex
     = Some {| lang := l; relPathWithExt := ""; relPathNoExt := ""; staticDir := sd |}.
Proof.
  intros Hsd Hl Hne0 Hne Hin. split.
  - destruct (parseDocInfo _ languages sd readmeAsIndex) as [info|] eqn:Hp; [|reflexivity].
    exfalso.
    destruct (parseDocInfo_inv languages sd readmeAsIndex _ info Hp)
      as (pre & rel & Hparts & Hlast & Hrel & _).
    destruct Hsd as [Hs1 Hs2]. destruct Hl as [Hl1 Hl2].
    rewrite !toPosix_append, (toPosix_id sd Hs2), (toPosix_id l Hl2) in Hparts.
    change (toPosix "/") with "/" in Hparts.
    change ("/" ++ sd ++ "/" ++ l) with (String "/" (sd ++ String "/" l)) in Hparts.
    rewrite !split_append, (split_no_sep "/" sd Hs1), (split_no_sep "/" l Hl1) in Hparts.
    assert (Hlast0 : ~ In sd [l]) by (intros [E|[]]; congruence).
    pose proof (last_pos_app sd (Js.split "/" (toPosix root)) [l] Hlast0) as E1.
    pose proof (last_pos_app sd pre (lang info :: rel) Hlast) as E2.
    cbn [app] in Hparts. unfold Lang in *. rewrite Hparts, E2 in E1. injection E1 as Elen.
    apply (f_equal (@List.length string)) in Hparts.
    rewrite !length_app in Hparts. cbn [List.length] in Hparts.
    destruct rel; [now apply Hrel | cbn [List.length] in Hparts; lia].
  - destruct (parseDocInfo_segments languages sd readmeAsIndex
                (root ++ "/" ++ sd ++ "/" ++ l ++ "/") (Js.split "/" (toPosix root)) [""] l)
      as (info & Hp & Hli & Hr & Hs).
    + exact (split_doc_path sd root l "" Hsd Hl eq_refl).
    + intros [E|[E|[]]]; congruence.
    + discriminate.
    + exact Hin.
    + pose proof (parseDocInfo_noExt languages sd _ readmeAsIndex info Hp) as Hno.
      rewrite Hr in Hno. cbn [Js.join] in Hno, Hr.
      change (stripExt "") with "" in Hno.
      rewrite andb_false_r in Hno.
      rewrite Hp. destruct info as [a b c d]. cbn in *. now subst.
Qed.

Lemma parseDocInfo_at_language_directory_witness :
  parseDocInfo "/w/static/en" langs3 "static" true = None
  /\ parseDocInfo "/w/static/en/" langs3 "static" true
     = Some {| lang := "en"; relPathWithExt := ""; relPathNoExt := ""; staticDir := "static" |}.
Proof.
  apply (parseDocInfo_at_language_directory langs3 "static" true "/w" "en");
    try (split; reflexivity); try discriminate.
  simpl. tauto.
Defined.

(** ** The two forms of the relative path *)

Section CutFacts.

Lemma substring_split (m : nat) (s : string) :
  (m <= String.length s)%nat ->
  s = substring 0 m s ++ substring m (String.length s - m) s.
Proof.
  revert m; induction s as [|c s IH]; intros [|m] Hm; simpl in *; try lia.
  - reflexivity.
  - now rewrite substring_all.
  - now rewrite <- IH by lia.
Qed.

Lemma length_substring_le (n m : nat) (s : string) :
  (String.length (substring n m s) <= String.length s)%nat.
Proof.
  revert n m; induction s as [|c s IH]; intros [|n] [|m]; simpl; try lia.
  - specialize (IH O m). lia.
  - specialize (IH n O). lia.
  - specialize (IH n (S m)). lia.
Qed.

Lemma length_substring (n m : nat) (s : string) :
  (n + m <= String.length s)%nat -> String.length (substring n m s) = m.
Proof.
  revert n m; induction s as [|c s IH]; intros [|n] [|m] H; simpl in *; try lia.
  - rewrite (IH O m); lia.
  - apply (IH n O); lia.
  - apply (IH n (S m)); lia.
Qed.

Lemma append_same_length (a b c d : string) :
  a ++ b = c ++ d -> String.length b = String.length d -> b = d.
Proof.
  revert c; induction a as [|x a IH]; intros [|y c] H Hl; simpl in H.
  - exact H.
  - apply (f_equal String.length) in H. simpl in H. rewrite length_append in H. lia.
  - apply (f_equal String.length) in H. simpl in H. rewrite length_append in H. lia.
  - injection H as _ H. exact (IH c H Hl).
Qed.

Lemma endsWith_inv (s suf : string) :
  Js.endsWith s suf = true -> exists d, s = d ++ suf.
Proof.
  induction s as [|c s IH]; cbn [Js.endsWith]; intros H.
  - apply String.eqb_eq in H. subst suf. now exists "".
  - apply orb_true_iff in H as [H|H].
    + apply String.eqb_eq in H. subst suf. now exists "".
    + destruct (IH H) as (d & ->). now exists (String c d).
Qed.

(** A non-empty string that does not end with a slash has a last
    character, and it is no slash. *)
Lemma last_char (s : string) :
  s <> "" -> Js.endsWith s "/" = false ->
  exists i c, String.length s = S i /\ String.get i s = Some c /\ c <> "/"%char.
Proof.
  induction s as [|x s IH]; intros Hne H; [now elim Hne|].
  cbn [Js.endsWith] in H. apply orb_false_elim in H as [Hx Hs].
  destruct s as [|y s].
  - exists O, x. repeat split. intros ->. discriminate Hx.
  - destruct (IH ltac:(discriminate) Hs) as (i & c & Hl & Hg & Hc).
    exists (S i), c. repeat split; [simpl in *; lia | exact Hg | exact Hc].
Qed.

End CutFacts.

Section ExtnameSuffix.

Import NodePath.

Variable e : Z.

(** Once the end of the name is marked, no step of the scan moves it,
    and a dot is only ever recorded before it. *)
Lemma ext_step_marked (i : Z) (c : ascii) (st : scan) :
  0 <= i < e -> marked e st ->
  match ext_step i c st with inl st' | inr st' => marked e st' end.
Proof.
  intros Hi (He & Hd). destruct st as [sD sP e0 mS pD]. simpl in *. subst e0.
  unfold ext_step, marked. simpl.
  destruct (Ascii.eqb c "/"); [destruct mS; simpl; split; auto|].
  destruct (Z.eqb_spec e (-1)) as [E1|_]; [lia|].
  destruct (Ascii.eqb c "."); simpl.
  - destruct (Z.eqb_spec sD (-1)); simpl; [split; [reflexivity | right; lia]|].
    destruct (negb (pD =? 1)); simpl; split; auto.
  - destruct (negb (sD =? -1)); simpl; split; auto.
Qed.

Lemma ext_loop_marked (p : string) (n : nat) (st : scan) :
  Z.of_nat n <= e -> marked e st -> marked e (ext_loop p n st).
Proof.
  revert st; induction n as [|i IH]; intros st Hn Hst; [exact Hst|].
  cbn [ext_loop]. destruct (String.get i p) as [c|]; [|exact Hst].
  pose proof (ext_step_marked (Z.of_nat i) c st ltac:(lia) Hst) as H.
  destruct (ext_step (Z.of_nat i) c st) as [st'|st']; [exact H|].
  apply IH; [lia | exact H].
Qed.

End ExtnameSuffix.

Section ExtensionCut.

(** The extension of a path that does not end with a slash is an end
    of the path. *)
Lemma extname_is_suffix (p : string) :
  Js.endsWith p "/" = false -> exists t, p = t ++ NodePath.extname p.
Proof.
  intros Hend. destruct (string_dec p "") as [->|Hne]; [now exists ""|].
  destruct (last_char p Hne Hend) as (i & c & Hl & Hg & Hc).
  assert (Hm : marked (Js.len p) (NodePath.ext_loop p (String.length p) NodePath.scan0)).
  { rewrite Hl. cbn [NodePath.ext_loop]. rewrite Hg.
    unfold NodePath.ext_step. apply Ascii.eqb_neq in Hc. rewrite Hc.
    cbn [NodePath.end_ NodePath.scan0 Z.eqb].
    cbv iota.
    destruct (Ascii.eqb c "."); simpl.
    - apply ext_loop_marked; [unfold Js.len; lia|].
      split; simpl; [unfold Js.len; lia | right; unfold Js.len; lia].
    - apply ext_loop_marked; [unfold Js.len; lia|].
      split; simpl; [unfold Js.len; lia | now left]. }
  unfold NodePath.extname. cbv zeta.
  destruct (NodePath.ext_loop p (String.length p) NodePath.scan0) as [sD sP e mS pD].
  destruct Hm as (He & Hd). simpl in He, Hd. subst e.
  cbn [NodePath.startDot NodePath.end_ NodePath.preDotState NodePath.startPart].
  destruct (Z.eqb_spec sD (-1)) as [E1|N1]; [exists p; now rewrite append_nil_r|].
  destruct Hd as [Hd|Hd]; [now elim N1|].
  match goal with |- context [if ?b then _ else _] => destruct b end;
    [exists p; now rewrite append_nil_r|].
  exists (substring 0 (Z.to_nat sD) p).
  unfold Js.slice, Js.rel_index.
  destruct (Z.ltb_spec sD 0); [lia|].
  destruct (Z.ltb_spec (Js.len p) 0); [unfold Js.len in *; lia|].
  rewrite Z.min_l, Z.min_r by lia.
  replace (Z.to_nat (Js.len p - sD)) with (String.length p - Z.to_nat sD)%nat
    by (unfold Js.len; lia).
  apply substring_split. unfold Js.len in *. lia.
Qed.

Lemma extname_length (p : string) :
  (String.length (NodePath.extname p) <= String.length p)%nat.
Proof.
  unfold NodePath.extname. cbv zeta.
  match goal with |- context [if ?b then _ else _] => destruct b end; [simpl; lia|].
  apply length_substring_le.
Qed.

(** [noExt], as [parseDocInfo] slices it: the relative path without
    its last characters, as many as the extension has. *)
Lemma stripExt_substring (rel : string) :
  stripExt rel
  = substring 0 (String.length rel - String.length (NodePath.extname rel)) rel.
Proof.
  pose proof (extname_length rel) as Hle.
  unfold stripExt, Js.slice, Js.rel_index, Js.len.
  change (0 <? 0) with false. cbv iota.
  destruct (Z.ltb_spec (Z.of_nat (String.length rel)
                        - Z.of_nat (String.length (NodePath.extname rel))) 0); [lia|].
  rewrite !Z.min_l by lia. f_equal. lia.
Qed.

End ExtensionCut.

(** What the code does on a relative path written with a trailing
    slash: [extname] looks past the slash and reports [.md], and the
    three characters cut from the end are [md/]. *)
Example trailing_slash_cut :
  parseDocInfo "/w/static/en/guide/README.md/" langs3 "static" true
  = Some {| lang := "en"; relPathWithExt := "guide/README.md/";
            relPathNoExt := "guide/README."; staticDir := "static" |}.
Proof. reflexivity. Qed.

(** X4.  What [relPathNoExt] is, from [relPathWithExt]: the relative
    path is [noExt] followed by a cut of as many characters as the
    extension [extname] reports for it, and the cut is that extension
    whenever the relative path does not end with a slash; [relPathNoExt]
    is [noExt], except that with README-as-index on and [noExt] of the
    form [d/README] it is [d]. *)
Theorem relPathNoExt_cut
  (languages : list Lang) (sd : string) (readmeAsIndex : bool) (p : string) (info : DocInfo) :
  parseDocInfo p languages sd readmeAsIndex = Some info ->
  exists noExt cut,
    relPathWithExt info = noExt ++ cut
    /\ String.length cut = String.length (NodePath.extname (relPathWithExt info))
    /\ (Js.endsWith (relPathWithExt info) "/" = false ->
        cut = NodePath.extname (relPathWithExt info))
    /\ (readmeAsIndex = false -> relPathNoExt info = noExt)
    /\ (readmeAsIndex = true ->
        forall d, noExt = d ++ "/README" -> relPathNoExt info = d)
    /\ ((forall d, noExt <> d ++ "/README") -> relPathNoExt info = noExt).
Proof.
  intros Hp.
  pose proof (parseDocInfo_noExt languages sd p readmeAsIndex info Hp) as Hno.
  pose proof (extname_length (relPathWithExt info)) as Hle.
  pose proof (stripExt_substring (relPathWithExt info)) as Hstrip.
  set (rel := relPathWithExt info) in *.
  set (ext := NodePath.extname rel) in *.
  exists (stripExt rel), (substring (String.length rel - String.length ext) (String.length ext) rel).
  assert (Hrel : rel = stripExt rel
                       ++ substring (String.length rel - String.length ext) (String.length ext) rel).
  { rewrite Hstrip.
    replace (String.length ext)
      with (String.length rel - (String.length rel - String.length ext))%nat at 3 by lia.
    apply substring_split. lia. }
  assert (Hlen : String.length (substring (String.length rel - String.length ext)
                                  (String.length ext) rel) = String.length ext).
  { apply length_substring. lia. }
  split; [exact Hrel|]. split; [exact Hlen|]. split; [|split; [|split]].
  - intros Hend. destruct (extname_is_suffix rel Hend) as (t & Ht). fold ext in Ht.
    apply (append_same_length (stripExt rel) _ t ext); [|exact Hlen].
    now rewrite <- Hrel, <- Ht.
  - intros ->. exact Hno.
  - intros -> d Hd. rewrite Hno, Hd, endsWith_suffix. cbn [andb].
    now apply dropSuffix_suffix.
  - intros Hnot. rewrite Hno.
    destruct (Js.endsWith (stripExt rel) "/README") eqn:He.
    + destruct (endsWith_inv _ _ He) as (d & Hd). now elim (Hnot d).
    + now rewrite andb_false_r.
Qed.

Lemma relPathNoExt_cut_witness :
  exists noExt cut,
    "guide/README.md" = noExt ++ cut
    /\ cut = ".md"
    /\ (forall d, noExt = d ++ "/README" -> "guide" = d).
Proof.
  destruct (relPathNoExt_cut langs3 "static" true "/w/static/en/guide/README.md"
              {| lang := "en"; relPathWithExt := "guide/README.md";
                 relPathNoExt := "guide"; staticDir := "static" |} eq_refl)
    as (noExt & cut & H1 & _ & H3 & _ & H5 & _).
  exists noExt, cut.
  split; [exact H1 | split; [exact (H3 eq_refl) | exact (H5 eq_refl)]].
Defined.

(** ** When the sibling path cannot be built *)

(** X5.  For a resolved path, [buildTargetFileUri] throws exactly when
    the anchoring static directory is the first segment of the path
    ([staticIdx] is 0: nothing stands before it, so the needle, which
    starts with a slash, is not found), whatever the target language.
    In particular it never throws on a path that starts with a slash,
    unless the static directory's name is empty. *)
Theorem buildTargetFileUri_throws_iff
  (languages : list Lang) (sd : string) (readmeAsIndex : bool)
  (p : string) (tgt : Lang) (info : DocInfo) :
  parseDocInfo p languages sd readmeAsIndex = Some info ->
  (buildTargetFileUri p tgt info = None
   <-> Js.lastIndexOf (Js.split "/" (toPosix p)) sd = 0)
  /\ (sd <> "" -> prefix "/" (toPosix p) = true -> buildTargetFileUri p tgt info <> None).
Proof.
  intros Hp.
  destruct (parseDocInfo_inv languages sd readmeAsIndex p info Hp)
    as (pre & rel & Hparts & Hlast & Hrel & _ & Hr & Hs).
  assert (Hidx : Js.lastIndexOf (Js.split "/" (toPosix p)) sd = Z.of_nat (List.length pre)).
  { unfold Js.lastIndexOf. now rewrite Hparts, (last_pos_app sd pre _ Hlast). }
  assert (Hiff : buildTargetFileUri p tgt info = None
                 <-> Js.lastIndexOf (Js.split "/" (toPosix p)) sd = 0).
  { rewrite Hidx. destruct pre as [|x pre].
    - split; [reflexivity|]. intros _.
      now apply (buildTargetFileUri_no_root sd p rel info tgt).
    - rewrite (buildTargetFileUri_segments sd p (x :: pre) rel info tgt Hparts
                 ltac:(discriminate) Hrel Hr Hs).
      split; [discriminate | simpl; lia]. }
  split; [exact Hiff|].
  intros Hne Hslash Hnone. apply Hiff in Hnone. rewrite Hidx in Hnone.
  destruct pre as [|x pre]; [|simpl in Hnone; lia].
  apply prefix_inv in Hslash as (t & Ht). rewrite Ht in Hparts.
  change ("/" ++ t) with ("" ++ String "/" t) in Hparts.
  rewrite split_append in Hparts. cbn in Hparts.
  injection Hparts as E _. now apply Hne.
Qed.

Lemma buildTargetFileUri_throws_iff_witness :
  (buildTargetFileUri "static/en/a.md" "ja"
     {| lang := "en"; relPathWithExt := "a.md"; relPathNoExt := "a"; staticDir := "static" |} = None
   <-> Js.lastIndexOf (Js.split "/" (toPosix "static/en/a.md")) "static" = 0)
  /\ ("static" <> "" -> prefix "/" (toPosix "static/en/a.md") = true ->
      buildTargetFileUri "static/en/a.md" "ja"
        {| lang := "en"; relPathWithExt := "a.md"; relPathNoExt := "a"; staticDir := "static" |}
      <> None).
Proof.
  exact (buildTargetFileUri_throws_iff langs3 "static" true "static/en/a.md" "ja"
           {| lang := "en"; relPathWithExt := "a.md"; relPathNoExt := "a"; staticDir := "static" |}
           eq_refl).
Defined.

(** ** Siblings of siblings *)

(** The sibling of a resolved path resolves again, to the same relative
    paths, and has the same siblings. *)
Lemma sibling_resolves
  (languages : list Lang) (sd : string) (readmeAsIndex : bool)
  (p : string) (info : DocInfo) (l2 : Lang) (p2 : string) :
  parseDocInfo p languages sd readmeAsIndex = Some info ->
  buildTargetFileUri p l2 info = Some p2 ->
  In l2 languages -> plain l2 -> l2 <> sd ->
  exists info2,
    parseDocInfo p2 languages sd readmeAsIndex = Some info2
    /\ lang info2 = l2
    /\ relPathWithExt info2 = relPathWithExt info
    /\ relPathNoExt info2 = relPathNoExt info
    /\ forall l3, buildTargetFileUri p2 l3 info2 = buildTargetFileUri p l3 info.
Proof.
  intros Hp Hb Hin2 Hplain Hne.
  destruct (parseDocInfo_inv languages sd readmeAsIndex p info Hp)
    as (pre & rel & Hparts & Hlast & Hrel & _ & Hr & Hs).
  destruct pre as [|x pre0].
  { rewrite (buildTargetFileUri_no_root sd p rel info l2 Hparts Hrel Hr Hs) in Hb.
    discriminate Hb. }
  set (pre := x :: pre0) in *.
  assert (Hpre : pre <> []) by discriminate.
  rewrite (buildTargetFileUri_segments sd p pre rel info l2 Hparts Hpre Hrel Hr Hs) in Hb.
  assert (Ep2 : p2 = Js.join "/" pre ++ "/" ++ sd ++ "/" ++ l2 ++ "/" ++ Js.join "/" rel)
    by congruence.
  clear Hb. subst p2.
  pose proof (split_sibling sd p pre rel (lang info) l2 Hparts Hpre Hrel Hplain) as Hparts2.
  assert (Hlast2 : ~ In sd (l2 :: rel)).
  { intros [E|E]; [now apply Hne | apply Hlast; now right]. }
  destruct (parseDocInfo_segments languages sd readmeAsIndex _ pre rel l2
              Hparts2 Hlast2 Hrel Hin2) as (info2 & Hp2 & Hl2 & Hr2 & Hs2).
  exists info2. split; [exact Hp2|]. split; [exact Hl2|].
  split; [congruence|]. split.
  - rewrite (parseDocInfo_noExt languages sd _ readmeAsIndex info2 Hp2).
    rewrite (parseDocInfo_noExt languages sd _ readmeAsIndex info Hp).
    now rewrite Hr2, Hr.
  - intros l3.
    assert (Hparts2' :
              Js.split "/" (toPosix (Js.join "/" pre ++ "/" ++ sd ++ "/" ++ l2 ++ "/"
                                     ++ Js.join "/" rel))
              = (pre ++ sd :: lang info2 :: rel)%list) by (rewrite Hl2; exact Hparts2).
    rewrite (buildTargetFileUri_segments sd _ pre rel info2 l3 Hparts2' Hpre Hrel Hr2 Hs2).
    now rewrite (buildTargetFileUri_segments sd p pre rel info l3 Hparts Hpre Hrel Hr Hs).
Qed.

(** X6.  The sibling built for a configured language [l2] (a plain
    name other than the static directory's) resolves to [l2] with the
    same two relative paths as the source, and every sibling built from
    it is the sibling built from the source: going through another
    language changes nothing. *)
Theorem sibling_of_sibling
  (languages : list Lang) (sd : string) (readmeAsIndex : bool)
  (p : string) (info : DocInfo) (l2 : Lang) (p2 : string) :
  parseDocInfo p languages sd readmeAsIndex = Some info ->
  buildTargetFileUri p l2 info = Some p2 ->
  In l2 languages -> plain l2 -> l2 <> sd ->
  exists info2,
    parseDocInfo p2 languages sd readmeAsIndex = Some info2
    /\ lang info2 = l2
    /\ relPathWithExt info2 = relPathWithExt info
    /\ relPathNoExt info2 = relPathNoExt info
    /\ forall l3, buildTargetFileUri p2 l3 info2 = buildTargetFileUri p l3 info.
Proof. exact (sibling_resolves languages sd readmeAsIndex p info l2 p2). Qed.

Lemma sibling_of_sibling_witness :
  exists info2,
    parseDocInfo "/w/static/ja/a/b.md" langs3 "static" true = Some info2
    /\ lang info2 = "ja"
    /\ relPathWithExt info2 = "a/b.md"
    /\ relPathNoExt info2 = "a/b"
    /\ forall l3,
         buildTargetFileUri "/w/static/ja/a/b.md" l3 info2
         = buildTargetFileUri "/w/static/en/a/b.md" l3
             {| lang := "en"; relPathWithExt := "a/b.md"; relPathNoExt := "a/b";
                staticDir := "static" |}.
Proof.
  apply (sibling_of_sibling langs3 "static" true "/w/static/en/a/b.md"
           {| lang := "en"; relPathWithExt := "a/b.md"; relPathNoExt := "a/b";
              staticDir := "static" |} "ja" "/w/static/ja/a/b.md" eq_refl eq_refl).
  - simpl. tauto.
  - split; reflexivity.
  - discriminate.
Defined.

(** ** The LAN address is a real candidate *)

(** X7.  [getLanIPv4Prefer192] never returns an internal or a
    non-IPv4 address: what it returns is the address of an entry of
    some interface whose family is IPv4 and which is not internal. *)
Theorem getLanIPv4Prefer192_is_eligible
  (ifs : list (string * option (list NetworkInterfaceInfo))) (ip : string) :
  getLanIPv4Prefer192 ifs = Some ip ->
  exists nm addrs a,
    In (nm, Some addrs) ifs /\ In a addrs
    /\ address a = ip /\ family a = "IPv4" /\ internal a = false.
Proof.
  intros H. rewrite getLanIPv4Prefer192_policy in H. unfold lanPolicy in H.
  assert (Hin : In ip (candidates ifs)).
  { destruct (find in192 (candidates ifs)) as [ip'|] eqn:E.
    - injection H as <-. now apply find_some in E.
    - now apply nth_error_In in H. }
  unfold candidates in Hin. apply in_flat_map in Hin as ([nm o] & Hentry & Hip).
  cbn [snd] in Hip. apply in_map_iff in Hip as (a & Ha & Hf).
  apply filter_In in Hf as (Hina & Hel).
  unfold eligible in Hel. apply andb_prop in Hel as (Hfam & Hint).
  destruct o as [addrs|]; [|destruct Hina].
  exists nm, addrs, a. repeat split; try assumption.
  - now apply String.eqb_eq.
  - now destruct (internal a).
Qed.

Lemma getLanIPv4Prefer192_is_eligible_witness :
  exists nm addrs a,
    In (nm, Some addrs)
       [("lo", Some [{| address := "127.0.0.1"; family := "IPv4"; internal := true |}]);
        ("eth0", Some [{| address := "fe80::1"; family := "IPv6"; internal := false |};
                       {| address := "10.0.0.5"; family := "IPv4"; internal := false |}])]
    /\ In a addrs
    /\ address a = "10.0.0.5" /\ family a = "IPv4" /\ internal a = false.
Proof.
  exact (getLanIPv4Prefer192_is_eligible
           [("lo", Some [{| address := "127.0.0.1"; family := "IPv4"; internal := true |}]);
            ("eth0", Some [{| address := "fe80::1"; family := "IPv6"; internal := false |};
                           {| address := "10.0.0.5"; family := "IPv4"; internal := false |}])]
           "10.0.0.5" eq_refl).
Defined.

(** ** What [patchBaseHost] leaves alone, and the shape of its result *)

Section TrailingSlashes.

Lemma stripTrailingSlashes_no_slash_end (s : string) :
  Js.endsWith (Js.stripTrailingSlashes s) "/" = false.
Proof.
  induction s as [|c s IH]; [reflexivity|].
  cbn [Js.stripTrailingSlashes].
  destruct (Ascii.eqb_spec c "/") as [->|Hc];
    destruct (String.eqb_spec (Js.stripTrailingSlashes s) "") as [E|E];
    cbn [andb]; try reflexivity; cbn [Js.endsWith]; rewrite IH, orb_false_r.
  - apply String.eqb_neq. intros H. injection H as H. now apply E.
  - apply String.eqb_neq. intros H. injection H as H _. now apply Hc.
  - apply String.eqb_neq. intros H. injection H as H _. now apply Hc.
Qed.

Lemma stripTrailingSlashes_fixed (s : string) :
  Js.endsWith s "/" = false -> Js.stripTrailingSlashes s = s.
Proof.
  induction s as [|c s IH]; [reflexivity|].
  cbn [Js.endsWith Js.stripTrailingSlashes]. intros H.
  apply orb_false_elim in H as [Hs Hr]. rewrite (IH Hr).
  destruct (Ascii.eqb_spec c "/") as [->|_]; [|reflexivity].
  destruct (String.eqb_spec s "") as [->|_]; [discriminate Hs | reflexivity].
Qed.

Lemma stripTrailingSlashes_slashes (s : string) (n : nat) :
  Js.stripTrailingSlashes (s ++ slashes n) = Js.stripTrailingSlashes s.
Proof.
  induction s as [|c s IH]; cbn [append Js.stripTrailingSlashes].
  - induction n as [|n IHn]; [reflexivity|].
    cbn [slashes Js.stripTrailingSlashes]. now rewrite IHn.
  - now rewrite IH.
Qed.

Lemma stripLeadingSlashes_slashes (s : string) (n : nat) :
  Js.stripLeadingSlashes (slashes n ++ s) = Js.stripLeadingSlashes s.
Proof. induction n as [|n IH]; [reflexivity | exact IH]. Qed.

(** A string none of whose segments after the first is empty does not
    end with a slash. *)
Lemma stripTrailingSlashes_segments (s : string) :
  ~ In "" (tl (Js.split "/" s)) -> Js.stripTrailingSlashes s = s.
Proof.
  induction s as [|c s IH]; [reflexivity|].
  cbn [Js.split Js.stripTrailingSlashes].
  pose proof (split_not_nil "/" s) as Hn.
  destruct (Ascii.eqb_spec c "/") as [->|Hc].
  - cbn [tl]. intros H.
    assert (Hs : s <> "") by (intros ->; apply H; now left).
    rewrite IH.
    + destruct (String.eqb_spec s ""); [contradiction | reflexivity].
    + intros H'. apply H. destruct (Js.split "/" s); [destruct H' | now right].
  - destruct (Js.split "/" s) as [|h t] eqn:E; [now elim Hn|].
    cbn [tl andb]. intros H. now rewrite (IH H).
Qed.

End TrailingSlashes.

(** X8.  [patchBaseHost] substitutes nothing unless the base's host is
    [127.0.0.1] or [localhost] and the address is a non-empty string:
    for any other host, and for the empty address, the result is the
    one obtained with no address at all. *)
Theorem patchBaseHost_only_loopback
  (parse_host : string -> option string) (new_URL : string -> option URL)
  (base : string) (lan : option string) (u : URL) :
  new_URL base = Some u ->
  (hostname u <> "127.0.0.1" /\ hostname u <> "localhost") \/ lan = Some "" ->
  patchBaseHost parse_host new_URL base lan = patchBaseHost parse_host new_URL base None.
Proof.
  intros Hu Hcase. unfold patchBaseHost. rewrite Hu.
  destruct lan as [l|]; [|reflexivity].
  destruct Hcase as [[H1 H2] | E].
  - apply String.eqb_neq in H1, H2. rewrite H1, H2. now rewrite andb_false_r.
  - injection E as ->. reflexivity.
Qed.

Lemma patchBaseHost_only_loopback_witness :
  patchBaseHost UrlRef.parse_host UrlRef.new_URL "https://docs.m5stack.com" (Some "192.168.1.23")
  = patchBaseHost UrlRef.parse_host UrlRef.new_URL "https://docs.m5stack.com" None.
Proof.
  refine (patchBaseHost_only_loopback UrlRef.parse_host UrlRef.new_URL
            "https://docs.m5stack.com" (Some "192.168.1.23") _ eq_refl _).
  left. split; discriminate.
Defined.

(** X9.  On a base the URL constructor accepts, the result of
    [patchBaseHost] never ends with a slash, so [buildUrl] appends
    [/lang/path] to it as it is, with exactly one slash at the joint. *)
Theorem patchBaseHost_then_buildUrl
  (parse_host : string -> option string) (new_URL : string -> option URL)
  (base : string) (lan : option string) (u : URL) (l : Lang) (rel : string) :
  new_URL base = Some u ->
  Js.endsWith (patchBaseHost parse_host new_URL base lan) "/" = false
  /\ buildUrl (patchBaseHost parse_host new_URL base lan) l rel
     = patchBaseHost parse_host new_URL base lan ++ "/" ++ l ++ "/"
       ++ Js.stripLeadingSlashes rel.
Proof.
  intros Hu.
  assert (Hend : Js.endsWith (patchBaseHost parse_host new_URL base lan) "/" = false).
  { unfold patchBaseHost. rewrite Hu. apply stripTrailingSlashes_no_slash_end. }
  split; [exact Hend|].
  unfold buildUrl. cbv zeta. now rewrite (stripTrailingSlashes_fixed _ Hend).
Qed.

Lemma patchBaseHost_then_buildUrl_witness :
  Js.endsWith (patchBaseHost UrlRef.parse_host UrlRef.new_URL "http://127.0.0.1:3000/"
                 (Some "192.168.1.23")) "/" = false
  /\ buildUrl (patchBaseHost UrlRef.parse_host UrlRef.new_URL "http://127.0.0.1:3000/"
                 (Some "192.168.1.23")) "en" "guide"
     = "http://192.168.1.23:3000/en/guide".
Proof.
  exact (patchBaseHost_then_buildUrl UrlRef.parse_host UrlRef.new_URL "http://127.0.0.1:3000/"
           (Some "192.168.1.23")
           {| protocol := "http:"; username := ""; password := "";
              host := Some "127.0.0.1"; port := "3000"; pathname := "/";
              search := ""; hash := ""; opaquePath := false |} "en" "guide" eq_refl).
Defined.

(** ** Slashes at the joints of a built URL *)

(** X10.  [buildUrl] does not depend on how many slashes end the base
    or begin the relative path, and a second normalization of its
    arguments changes nothing. *)
Theorem buildUrl_ignores_joint_slashes
  (base : string) (l : Lang) (rel : string) (n m : nat) :
  buildUrl (base ++ slashes n) l (slashes m ++ rel) = buildUrl base l rel
  /\ buildUrl (Js.stripTrailingSlashes base) l (Js.stripLeadingSlashes rel)
     = buildUrl base l rel.
Proof.
  unfold buildUrl. cbv zeta. split.
  - now rewrite stripTrailingSlashes_slashes, stripLeadingSlashes_slashes.
  - rewrite (stripTrailingSlashes_fixed _ (stripTrailingSlashes_no_slash_end base)).
    f_equal. f_equal. f_equal. f_equal.
    induction rel as [|c rel IH]; [reflexivity|].
    cbn [Js.stripLeadingSlashes].
    destruct (Ascii.eqb c "/") eqn:E; [exact IH|].
    cbn [Js.stripLeadingSlashes]. now rewrite E.
Qed.

(** ** What the URL parser returns *)

Section ParsedUrl.

Lemma filter_all_true {A : Type} (f : A -> bool) (l : list A) :
  (forall x, In x l -> f x = true) -> filter f l = l.
Proof.
  induction l as [|x l IH]; intros H; [reflexivity|].
  cbn [filter]. rewrite (H x (or_introl eq_refl)). f_equal.
  apply IH. intros y Hy. apply H. now right.
Qed.

Lemma pathSegments_elements (u : URL) (x : string) :
  In x (pathSegments u) -> x <> "" /\ segment x.
Proof.
  unfold pathSegments, Js.filterBoolean. intros H.
  apply filter_In in H as (Hin & Hne). split.
  - intros ->. discriminate Hne.
  - pose proof (split_elements "/" (pathname u)) as Hall.
    rewrite Forall_forall in Hall. exact (Hall x Hin).
Qed.

End ParsedUrl.

(** X11.  Whatever the URL, a parsed result is in normal form: the
    language is a configured, non-empty name without slash, and the
    relative path is non-empty, has no empty segment (no leading,
    trailing or doubled slash), and is left as it is by the slash
    stripping that [buildUrl] and the open-from-URL command apply. *)
Theorem parseUrl_result_normal
  (new_URL : string -> option URL) (urlStr : string) (languages : list Lang)
  (l : Lang) (rel : string) :
  parseUrlToLangAndRel new_URL urlStr languages = Some (l, rel) ->
  In l languages /\ l <> "" /\ segment l
  /\ rel <> ""
  /\ Js.filterBoolean (Js.split "/" rel) = Js.split "/" rel
  /\ Js.stripLeadingSlashes rel = rel
  /\ Js.stripTrailingSlashes rel = rel.
Proof.
  intros H.
  destruct (new_URL urlStr) as [u|] eqn:Hu;
    [|unfold parseUrlToLangAndRel in H; rewrite Hu in H; discriminate H].
  rewrite (parseUrl_of_segments new_URL languages urlStr u Hu) in H.
  destruct (pathSegments u) as [|l0 [|r rest]] eqn:Hsegs; try discriminate H.
  destruct (existsb (String.eqb l0) languages) eqn:Hin; [|discriminate H].
  assert (El : l = l0) by congruence.
  assert (Er : rel = Js.join "/" (r :: rest)) by congruence.
  clear H. subst l rel.
  assert (Hel : forall x, In x (l0 :: r :: rest) -> x <> "" /\ segment x).
  { intros x Hx. apply (pathSegments_elements u). now rewrite Hsegs. }
  assert (Hsplit : Js.split "/" (Js.join "/" (r :: rest)) = r :: rest).
  { apply split_join; [discriminate|].
    apply Forall_forall. intros x Hx. apply Hel. now right. }
  assert (Hfilter : Js.filterBoolean (Js.split "/" (Js.join "/" (r :: rest)))
                    = Js.split "/" (Js.join "/" (r :: rest))).
  { rewrite Hsplit. apply filter_all_true. intros x Hx.
    destruct (Hel x (or_intror Hx)) as [Hne _].
    apply String.eqb_neq in Hne. now rewrite Hne. }
  split; [now apply existsb_eqb_In|].
  split; [apply (Hel l0); now left|].
  split; [apply (Hel l0); now left|].
  split.
  { intros E. rewrite E in Hsplit. cbn in Hsplit. injection Hsplit as E' _.
    destruct (Hel r) as [Hne _]; [right; now left|]. now apply Hne. }
  split; [exact Hfilter|].
  split; [now apply stripLeadingSlashes_id|].
  apply stripTrailingSlashes_segments. rewrite Hsplit. cbn [tl].
  intros Hx. destruct (Hel "") as [Hne _]; [right; now right|]. now apply Hne.
Qed.

Lemma parseUrl_result_normal_witness :
  In "zh_CN" langs3 /\ "zh_CN" <> "" /\ segment "zh_CN"
  /\ "a/b" <> ""
  /\ Js.filterBoolean (Js.split "/" "a/b") = Js.split "/" "a/b"
  /\ Js.stripLeadingSlashes "a/b" = "a/b"
  /\ Js.stripTrailingSlashes "a/b" = "a/b".
Proof.
  exact (parseUrl_result_normal UrlRef.new_URL "https://docs.m5stack.com//zh_CN/a//b/"
           langs3 "zh_CN" "a/b" eq_refl).
Defined.

(** ** The workspace picker only picks open folders *)

(** X12.  [pickDocsWorkspace] never returns a folder that is not open,
    and with a single open folder and a configured language it returns
    that folder, whatever its name and content. *)
Theorem pickDocsWorkspace_picks_open_folder
  (joinPath : string -> list string -> string) (exists_ : string -> bool)
  (folders : list WorkspaceFolder) (staticDir : string) (languages : list Lang)
  (preferredName : option string) :
  (forall f, pickDocsWorkspace joinPath exists_ folders staticDir languages preferredName
             = Returns (Some f) -> In f folders)
  /\ (forall f, folders = [f] -> languages <> [] ->
        pickDocsWorkspace joinPath exists_ folders staticDir languages preferredName
        = Returns (Some f)).
Proof.
  split.
  - intros f. unfold pickDocsWorkspace.
    destruct (Z.of_nat (List.length folders) =? 0); [discriminate|].
    destruct (if truthy preferredName then _ else None) as [g|] eqn:Eby.
    + intros H. injection H as <-.
      destruct (truthy preferredName); [|discriminate Eby].
      now apply find_some in Eby.
    + destruct (nth_error languages 0) as [l0|]; [|discriminate].
      destruct (find (fun g => exists_ (joinPath (uri g) [staticDir; l0])) folders)
        as [g|] eqn:Ef; intros H; injection H as H.
      * subst g. now apply find_some in Ef.
      * destruct folders as [|g0 fs]; [discriminate H|]. injection H as ->. now left.
  - intros f -> Hl. unfold pickDocsWorkspace. cbn [List.length Z.of_nat Z.eqb Pos.of_succ_nat].
    destruct languages as [|l0 ls]; [now elim Hl|].
    cbn [find nth_error].
    destruct (truthy preferredName); [destruct (String.eqb (name f) _); [reflexivity|]|];
      now destruct (exists_ _).
Qed.

(** ** The extension [.md] *)

Section ExtnameMd.

Import NodePath.

Lemma get_front (x s : string) (i : nat) :
  (i < String.length x)%nat -> String.get i (x ++ s) = String.get i x.
Proof.
  revert i; induction x as [|c x IH]; intros i Hi; simpl in Hi; [lia|].
  destruct i as [|i]; simpl; [reflexivity | apply IH; lia].
Qed.

Lemma substring_tail (x s : string) :
  substring (String.length x) (String.length s) (x ++ s) = s.
Proof. induction x as [|c x IH]; simpl; [apply substring_all | exact IH]. Qed.

Lemma slice_tail (x s : string) :
  Js.slice (x ++ s) (Js.len x) (Js.len x + Js.len s) = s.
Proof.
  unfold Js.slice, Js.rel_index, Js.len. rewrite length_append.
  destruct (Z.ltb_spec (Z.of_nat (String.length x)) 0); [lia|].
  destruct (Z.ltb_spec (Z.of_nat (String.length x) + Z.of_nat (String.length s)) 0); [lia|].
  rewrite !Z.min_l by lia.
  replace (Z.of_nat (String.length x) + Z.of_nat (String.length s)
           - Z.of_nat (String.length x)) with (Z.of_nat (String.length s)) by lia.
  rewrite !Nat2Z.id. apply substring_tail.
Qed.

(** Once the dot and the end of the name are marked, the characters
    before the dot change neither of them, and one of them is enough to
    leave the state "nothing seen before the dot". *)
Lemma ext_loop_before_dot (x s : string) (n : nat) (st : scan) :
  has_char "/" x = false -> (n <= String.length x)%nat ->
  startDot st <> -1 -> end_ st <> -1 ->
  startDot (ext_loop (x ++ s) n st) = startDot st
  /\ end_ (ext_loop (x ++ s) n st) = end_ st
  /\ ((0 < n)%nat \/ preDotState st <> 0 -> preDotState (ext_loop (x ++ s) n st) <> 0).
Proof.
  intros Hx. revert st; induction n as [|i IH]; intros st Hn HD HE.
  - cbn [ext_loop]. repeat split. intros [H|H]; [lia | exact H].
  - cbn [ext_loop]. rewrite get_front by lia.
    destruct (get_in_range x i ltac:(lia)) as (c & Hget). rewrite Hget.
    pose proof (get_no_slash x i c Hx Hget) as Hc. apply Ascii.eqb_neq in Hc.
    unfold ext_step. rewrite Hc.
    destruct (Z.eqb_spec (end_ st) (-1)) as [E|_]; [contradiction|].
    destruct (Z.eqb_spec (startDot st) (-1)) as [E|_]; [contradiction|].
    cbn [negb].
    destruct (Ascii.eqb c ".").
    + destruct (Z.eqb_spec (preDotState st) 1) as [E1|E1]; cbn [negb].
      * destruct (IH st ltac:(lia) HD HE) as (H1 & H2 & H3).
        repeat split; try assumption. intros _. apply H3. right. lia.
      * destruct (IH {| startDot := startDot st; startPart := startPart st;
                        end_ := end_ st; matchedSlash := matchedSlash st;
                        preDotState := 1 |} ltac:(lia) HD HE) as (H1 & H2 & H3).
        repeat split; try assumption. intros _. apply H3. right. cbn. lia.
    + destruct (IH {| startDot := startDot st; startPart := startPart st;
                      end_ := end_ st; matchedSlash := matchedSlash st;
                      preDotState := -1 |} ltac:(lia) HD HE) as (H1 & H2 & H3).
      repeat split; try assumption. intros _. apply H3. right. cbn. lia.
Qed.

Lemma ext_loop_next (p : string) (i : nat) (c : ascii) (st st1 : scan) :
  String.get i p = Some c -> ext_step (Z.of_nat i) c st = inr st1 ->
  ext_loop p (S i) st = ext_loop p i st1.
Proof. intros Hg Hs. cbn [ext_loop]. now rewrite Hg, Hs. Qed.

(** The extension of a non-empty name followed by [.md] is [.md]. *)
Lemma extname_md_name (x : string) :
  x <> "" -> has_char "/" x = false -> extname (x ++ ".md") = ".md".
Proof.
  intros Hne Hx. unfold extname.
  set (n := String.length x).
  assert (Hlen : String.length (x ++ ".md") = S (S (S n))).
  { rewrite length_append. cbn [String.length]. unfold n. lia. }
  assert (Gd : String.get (S (S n)) (x ++ ".md") = Some "d"%char)
    by exact (get_behind x "md" "." 1).
  assert (Gm : String.get (S n) (x ++ ".md") = Some "m"%char)
    by exact (get_behind x "md" "." 0).
  assert (Gdot : String.get n (x ++ ".md") = Some "."%char)
    by exact (get_separator x "md" ".").
  set (e := Z.of_nat (S (S n)) + 1).
  assert (He : e <> -1) by (unfold e; lia).
  rewrite Hlen.
  rewrite (ext_loop_next _ _ _ scan0
             {| startDot := -1; startPart := 0; end_ := e;
                matchedSlash := false; preDotState := 0 |} Gd eq_refl).
  rewrite (ext_loop_next _ _ _ _
             {| startDot := -1; startPart := 0; end_ := e;
                matchedSlash := false; preDotState := 0 |} Gm).
  2: { unfold ext_step. cbn. now destruct (Z.eqb_spec e (-1)). }
  rewrite (ext_loop_next _ _ _ _
             {| startDot := Z.of_nat n; startPart := 0; end_ := e;
                matchedSlash := false; preDotState := 0 |} Gdot).
  2: { unfold ext_step. cbn. now destruct (Z.eqb_spec e (-1)). }
  set (st := {| startDot := Z.of_nat n; startPart := 0; end_ := e;
                matchedSlash := false; preDotState := 0 |}).
  destruct (ext_loop_before_dot x ".md" n st Hx (le_n _)) as (HD & HE & HP);
    [cbn; lia | exact He |].
  assert (Hpos : (0 < n)%nat) by (unfold n; destruct x; [now elim Hne | simpl; lia]).
  specialize (HP (or_introl Hpos)).
  cbv zeta. rewrite HD, HE. cbn [startDot end_ st].
  destruct (Z.eqb_spec (Z.of_nat n) (-1)) as [E|_]; [lia|].
  destruct (Z.eqb_spec e (-1)) as [E|_]; [contradiction|].
  destruct (Z.eqb_spec (preDotState (ext_loop (x ++ ".md") n st)) 0) as [E|_];
    [contradiction|].
  destruct (Z.eqb_spec (Z.of_nat n) (e - 1)) as [E|_]; [unfold e in E; lia|].
  rewrite andb_false_r. cbn [orb andb].
  replace e with (Js.len x + Js.len ".md")
    by (unfold e, n, Js.len; cbn [String.length]; lia).
  apply (slice_tail x ".md").
Qed.

(** A string is its last segment, or a directory, a slash and its last
    segment. *)
Lemma last_segment (s : string) :
  exists x, In x (Js.split "/" s) /\ (s = x \/ exists d, s = d ++ String "/" x).
Proof.
  destruct (exists_last (split_not_nil "/" s)) as (init & x & Hsplit).
  exists x. split; [rewrite Hsplit; apply in_or_app; right; now left|].
  rewrite <- (join_split "/" s), Hsplit.
  destruct init as [|y init]; [now left|].
  right. exists (Js.join "/" (y :: init)).
  now rewrite (join_app "/") by discriminate.
Qed.

(** A relative path without empty segment followed by [.md] has the
    extension [.md], which [stripExt] removes again. *)
Lemma stripExt_md (rel : string) :
  Js.filterBoolean (Js.split "/" rel) = Js.split "/" rel ->
  NodePath.extname (rel ++ ".md") = ".md" /\ stripExt (rel ++ ".md") = rel.
Proof.
  intros Hrel.
  assert (Hext : NodePath.extname (rel ++ ".md") = ".md").
  { destruct (last_segment rel) as (x & Hin & Hshape).
    assert (Hx : x <> "" /\ has_char "/" x = false).
    { split.
      - intros ->. rewrite <- Hrel in Hin. apply filter_In in Hin as [_ H]. discriminate H.
      - pose proof (split_elements "/" rel) as Hall.
        rewrite Forall_forall in Hall. now apply Hall. }
    destruct Hx as [Hne Hseg].
    destruct Hshape as [->|(d & ->)]; [now apply extname_md_name|].
    rewrite append_assoc. change (String "/" x ++ ".md") with (String "/" (x ++ ".md")).
    rewrite extname_last_segment.
    - now apply extname_md_name.
    - now rewrite has_char_append, Hseg.
    - destruct x; [now elim Hne | discriminate]. }
  split; [exact Hext|].
  unfold stripExt. rewrite Hext.
  replace (Js.len (rel ++ ".md") - Js.len ".md") with (Js.len rel)
    by (unfold Js.len; rewrite length_append; cbn [String.length]; lia).
  apply slice_head.
Qed.

End ExtnameMd.

(** ** From a file to its URL and back *)

Section UrlAndFile.

Variable new_URL : string -> option URL.
Variable languages : list Lang.

(** A URL whose path is [/l/rel] parses to [(l, rel)]. *)
Lemma parseUrl_of_path (urlStr : string) (u : URL) (l : Lang) (rel : string) :
  In l languages -> l <> "" -> segment l ->
  Js.filterBoolean (Js.split "/" rel) = Js.split "/" rel ->
  new_URL urlStr = Some u -> pathname u = "/" ++ l ++ "/" ++ rel ->
  parseUrlToLangAndRel new_URL urlStr languages = Some (l, rel).
Proof.
  intros Hin Hne Hseg Hrel Hu Hpath.
  rewrite (parseUrl_of_segments new_URL languages _ u Hu).
  unfold pathSegments. rewrite Hpath.
  change ("/" ++ l ++ "/" ++ rel) with ("" ++ String "/" (l ++ String "/" rel)).
  rewrite !split_append, (split_no_sep "/" l Hseg).
  cbn [Js.split app]. unfold Js.filterBoolean in *.
  cbn [filter String.eqb negb].
  apply String.eqb_neq in Hne. rewrite Hne. cbn [negb]. rewrite Hrel.
  pose proof (split_not_nil "/" rel) as Hn.
  destruct (Js.split "/" rel) as [|r rest] eqn:E; [now elim Hn|].
  apply existsb_eqb_In in Hin. rewrite Hin.
  now rewrite <- E, join_split.
Qed.

Lemma buildUrl_truthy (base : string) (l : Lang) (rel : string) :
  truthy (Some (buildUrl base l rel)) = true.
Proof.
  unfold truthy, buildUrl. cbv zeta.
  destruct (Js.stripTrailingSlashes base); reflexivity.
Qed.

(** The fragments for a parsed URL in normal form spell
    [staticDir/lang/rel.md]. *)
Lemma targetFragments_spell (sd : string) (l : Lang) (rel : string) :
  Js.filterBoolean (Js.split "/" rel) = Js.split "/" rel ->
  targetFragments sd (l, rel) = sd :: l :: Js.split "/" (rel ++ ".md")
  /\ Js.join "/" (targetFragments sd (l, rel)) = sd ++ "/" ++ l ++ "/" ++ rel ++ ".md".
Proof.
  intros Hrel.
  assert (Hstrip : Js.stripTrailingSlashes rel = rel).
  { apply stripTrailingSlashes_segments. intros H.
    assert (Hin : In "" (Js.split "/" rel))
      by (destruct (Js.split "/" rel); [destruct H | now right]).
    rewrite <- Hrel in Hin. apply filter_In in Hin as [_ Hf]. discriminate Hf. }
  unfold targetFragments. cbn [fst snd]. cbv zeta. rewrite Hstrip.
  split; [reflexivity|].
  rewrite (join_cons "/" sd) by discriminate.
  rewrite (join_cons "/" l) by apply split_not_nil.
  now rewrite join_split.
Qed.

End UrlAndFile.

(** X13.  From a file to its online URL and back.  For a document
    [root/sd/l/rel.md] (plain names, [rel] without empty segment, no
    later segment named [sd], and not a README that the index rule
    shortens), [m5docs.openOnline] opens [buildUrl onlineBase l rel];
    and when the URL constructor gives that URL the path [/l/rel] and a
    workspace folder [ws] is picked, [m5docs.openFromUrl] on the same
    URL targets [Uri.joinPath(ws.uri, sd, l, ...segments of rel.md)]:
    the fragments spell the path of the file below its root. *)
Theorem online_url_leads_back
  (new_URL : string -> option URL) (joinPath : string -> list string -> string)
  (exists_ : string -> bool) (folders : list WorkspaceFolder)
  (languages : list Lang) (sd : string) (readmeAsIndex : bool)
  (onlineBase docsRootName root : string) (l : Lang) (rel : string)
  (u : URL) (ws : WorkspaceFolder) :
  plain sd -> plain l -> l <> "" -> sd <> l -> In l languages ->
  has_char "\" rel = false ->
  Js.filterBoolean (Js.split "/" rel) = Js.split "/" rel ->
  ~ In sd (Js.split "/" (rel ++ ".md")) ->
  readmeAsIndex = false \/ Js.endsWith rel "/README" = false ->
  new_URL (buildUrl onlineBase l rel) = Some u ->
  pathname u = "/" ++ l ++ "/" ++ rel ->
  pickDocsWorkspace joinPath exists_ folders sd languages (Some docsRootName)
  = Returns (Some ws) ->
  openOnline languages sd readmeAsIndex onlineBase
    (Some (root ++ "/" ++ sd ++ "/" ++ l ++ "/" ++ rel ++ ".md"))
  = OpenExternal (buildUrl onlineBase l rel)
  /\ openFromUrl new_URL joinPath exists_ folders languages sd docsRootName
       (Some (buildUrl onlineBase l rel))
     = OpenWithCreatePrompt (joinPath (uri ws) (sd :: l :: Js.split "/" (rel ++ ".md")))
  /\ toPosix (root ++ "/" ++ sd ++ "/" ++ l ++ "/" ++ rel ++ ".md")
     = toPosix root ++ "/" ++ Js.join "/" (sd :: l :: Js.split "/" (rel ++ ".md")).
Proof.
  intros Hsd Hl Hlne Hne Hin Hback Hrel Hnsd Hreadme Hu Hpath Hpick.
  assert (HP : has_char "\" (rel ++ ".md") = false) by now rewrite has_char_append, Hback.
  pose proof (split_doc_path sd root l (rel ++ ".md") Hsd Hl HP) as Hparts.
  assert (Hlast : ~ In sd (l :: Js.split "/" (rel ++ ".md"))).
  { intros [E|E]; [congruence | now apply Hnsd]. }
  destruct (parseDocInfo_segments languages sd readmeAsIndex _ _ _ l Hparts Hlast
              (split_not_nil "/" _) Hin) as (info & Hp & Hli & Hr & _).
  rewrite join_split in Hr.
  destruct (stripExt_md rel Hrel) as [_ Hstrip].
  assert (Hno : relPathNoExt info = rel).
  { rewrite (parseDocInfo_noExt languages sd _ readmeAsIndex info Hp), Hr, Hstrip.
    destruct Hreadme as [-> | ->]; [reflexivity | now rewrite andb_false_r]. }
  destruct (targetFragments_spell sd l rel Hrel) as [Hfrag Hjoin].
  split; [|split].
  - unfold openOnline. now rewrite Hp, Hli, Hno.
  - unfold openFromUrl. rewrite buildUrl_truthy. cbn [negb].
    destruct Hl as [Hl1 _].
    rewrite (parseUrl_of_path new_URL languages _ u l rel Hin Hlne Hl1 Hrel Hu Hpath).
    now rewrite Hpick, Hfrag.
  - rewrite <- Hfrag, Hjoin.
    destruct Hsd as [_ Hs2]. destruct Hl as [_ Hl2].
    now rewrite !toPosix_append, (toPosix_id sd Hs2), (toPosix_id l Hl2),
      (toPosix_id rel Hback).
Qed.

Lemma online_url_leads_back_witness :
  openOnline langs3 "static" true "https://docs.m5stack.com"
    (Some "/w/nuxt-m5-docs/static/zh_CN/guide/intro.md")
  = OpenExternal "https://docs.m5stack.com/zh_CN/guide/intro"
  /\ openFromUrl UrlRef.new_URL (fun r segs => Js.join "/" (r :: segs)) (fun _ => false)
       [{| name := "nuxt-m5-docs"; uri := "/w/nuxt-m5-docs" |}] langs3 "static" "nuxt-m5-docs"
       (Some "https://docs.m5stack.com/zh_CN/guide/intro")
     = OpenWithCreatePrompt "/w/nuxt-m5-docs/static/zh_CN/guide/intro.md"
  /\ toPosix "/w/nuxt-m5-docs/static/zh_CN/guide/intro.md"
     = toPosix "/w/nuxt-m5-docs" ++ "/"
       ++ Js.join "/" ["static"; "zh_CN"; "guide"; "intro.md"].
Proof.
  refine (online_url_leads_back UrlRef.new_URL (fun r segs => Js.join "/" (r :: segs))
            (fun _ => false) [{| name := "nuxt-m5-docs"; uri := "/w/nuxt-m5-docs" |}]
            langs3 "static" true "https://docs.m5stack.com" "nuxt-m5-docs" "/w/nuxt-m5-docs"
            "zh_CN" "guide/intro" _ {| name := "nuxt-m5-docs"; uri := "/w/nuxt-m5-docs" |}
            _ _ _ _ _ _ _ _ _ eq_refl eq_refl eq_refl);
    try (split; reflexivity); try reflexivity; try discriminate.
  - simpl. tauto.
  - simpl. intros [E|[E|[]]]; discriminate E.
  - now right.
Defined.

(** X14.  A README does not come back.  With README-as-index on, the
    online URL of [root/sd/l/dir/README.md] is [buildUrl onlineBase l
    dir]; pasted into [m5docs.openFromUrl] (the URL constructor giving
    it the path [/l/dir]), it targets the fragments of [sd/l/dir.md],
    which is another file than [sd/l/dir/README.md]. *)
Theorem readme_url_leads_elsewhere
  (new_URL : string -> option URL) (joinPath : string -> list string -> string)
  (exists_ : string -> bool) (folders : list WorkspaceFolder)
  (languages : list Lang) (sd : string)
  (onlineBase docsRootName root : string) (l : Lang) (dir : string)
  (u : URL) (ws : WorkspaceFolder) :
  plain sd -> plain l -> l <> "" -> sd <> l -> In l languages ->
  has_char "\" dir = false ->
  Js.filterBoolean (Js.split "/" dir) = Js.split "/" dir ->
  ~ In sd (Js.split "/" dir) -> sd <> "README.md" ->
  new_URL (buildUrl onlineBase l dir) = Some u ->
  pathname u = "/" ++ l ++ "/" ++ dir ->
  pickDocsWorkspace joinPath exists_ folders sd languages (Some docsRootName)
  = Returns (Some ws) ->
  openOnline languages sd true onlineBase
    (Some (root ++ "/" ++ sd ++ "/" ++ l ++ "/" ++ dir ++ "/README.md"))
  = OpenExternal (buildUrl onlineBase l dir)
  /\ openFromUrl new_URL joinPath exists_ folders languages sd docsRootName
       (Some (buildUrl onlineBase l dir))
     = OpenWithCreatePrompt (joinPath (uri ws) (sd :: l :: Js.split "/" (dir ++ ".md")))
  /\ Js.join "/" (sd :: l :: Js.split "/" (dir ++ ".md"))
     = sd ++ "/" ++ l ++ "/" ++ dir ++ ".md"
  /\ sd ++ "/" ++ l ++ "/" ++ dir ++ ".md" <> sd ++ "/" ++ l ++ "/" ++ dir ++ "/README.md".
Proof.
  intros Hsd Hl Hlne Hne Hin Hback Hrel Hnsd Hnr Hu Hpath Hpick.
  destruct (readme_normalization languages sd root l dir true Hsd Hl Hback Hne Hnsd Hnr Hin)
    as (info & Hp & Hli & _ & Hno).
  destruct (targetFragments_spell sd l dir Hrel) as [Hfrag Hjoin].
  split; [|split; [|split]].
  - unfold openOnline. now rewrite Hp, Hli, Hno.
  - unfold openFromUrl. rewrite buildUrl_truthy. cbn [negb].
    destruct Hl as [Hl1 _].
    rewrite (parseUrl_of_path new_URL languages _ u l dir Hin Hlne Hl1 Hrel Hu Hpath).
    now rewrite Hpick, Hfrag.
  - now rewrite <- Hfrag.
  - intros E. repeat apply append_inv_head in E. discriminate E.
Qed.

Lemma readme_url_leads_elsewhere_witness :
  openOnline langs3 "static" true "https://docs.m5stack.com"
    (Some "/w/nuxt-m5-docs/static/en/guide/README.md")
  = OpenExternal "https://docs.m5stack.com/en/guide"
  /\ openFromUrl UrlRef.new_URL (fun r segs => Js.join "/" (r :: segs)) (fun _ => false)
       [{| name := "nuxt-m5-docs"; uri := "/w/nuxt-m5-docs" |}] langs3 "static" "nuxt-m5-docs"
       (Some "https://docs.m5stack.com/en/guide")
     = OpenWithCreatePrompt "/w/nuxt-m5-docs/static/en/guide.md"
  /\ Js.join "/" ["static"; "en"; "guide.md"] = "static/en/guide.md"
  /\ "static/en/guide.md" <> "static/en/guide/README.md".
Proof.
  refine (readme_url_leads_elsewhere UrlRef.new_URL (fun r segs => Js.join "/" (r :: segs))
            (fun _ => false) [{| name := "nuxt-m5-docs"; uri := "/w/nuxt-m5-docs" |}]
            langs3 "static" "https://docs.m5stack.com" "nuxt-m5-docs" "/w/nuxt-m5-docs"
            "en" "guide" _ {| name := "nuxt-m5-docs"; uri := "/w/nuxt-m5-docs" |}
            _ _ _ _ _ _ _ _ _ eq_refl eq_refl eq_refl);
    try (split; reflexivity); try reflexivity; try discriminate.
  - simpl. tauto.
  - simpl. intros [E|[]]; discriminate E.
Defined.

(** X15.  The pages of all languages share their path.  When the
    sibling of a resolved document is opened for a configured language
    [l2] (a plain name other than the static directory's), the online
    and preview URLs of that sibling are those of the document with
    [l2] in the place of the language: the rest of the URL is the same. *)
Theorem sibling_urls_differ_in_language
  (parse_host : string -> option string) (new_URL : string -> option URL)
  (ifs : list (string * option (list NetworkInterfaceInfo)))
  (languages : list Lang) (sd : string) (readmeAsIndex : bool)
  (onlineBase previewBase : string) (p : string) (info : DocInfo) (l2 : Lang) (p2 : string) :
  parseDocInfo p languages sd readmeAsIndex = Some info ->
  openSibling languages sd readmeAsIndex l2 (Some p) = OpenWithCreatePrompt p2 ->
  In l2 languages -> plain l2 -> l2 <> sd ->
  openOnline languages sd readmeAsIndex onlineBase (Some p)
  = OpenExternal (buildUrl onlineBase (lang info) (relPathNoExt info))
  /\ openOnline languages sd readmeAsIndex onlineBase (Some p2)
     = OpenExternal (buildUrl onlineBase l2 (relPathNoExt info))
  /\ openPreview parse_host new_URL ifs languages sd readmeAsIndex previewBase (Some p2)
     = OpenExternal (buildUrl (patchBaseHost parse_host new_URL previewBase
                                 (getLanIPv4Prefer192 ifs)) l2 (relPathNoExt info)).
Proof.
  intros Hp Hsib Hin2 Hplain Hne.
  unfold openSibling in Hsib. rewrite Hp in Hsib.
  destruct (buildTargetFileUri p l2 info) as [t|] eqn:Hb; [|discriminate Hsib].
  assert (Et : t = p2) by congruence. subst t.
  destruct (sibling_resolves languages sd readmeAsIndex p info l2 p2 Hp Hb Hin2 Hplain Hne)
    as (info2 & Hp2 & Hl2 & _ & Hno2 & _).
  unfold openOnline, openPreview. rewrite Hp, Hp2, Hl2, Hno2. cbv zeta.
  now repeat split.
Qed.

Lemma sibling_urls_differ_in_language_witness :
  openOnline langs3 "static" true "https://docs.m5stack.com" (Some "/w/static/en/guide/README.md")
  = OpenExternal "https://docs.m5stack.com/en/guide"
  /\ openOnline langs3 "static" true "https://docs.m5stack.com"
       (Some "/w/static/ja/guide/README.md")
     = OpenExternal "https://docs.m5stack.com/ja/guide"
  /\ openPreview UrlRef.parse_host UrlRef.new_URL [] langs3 "static" true
       "http://127.0.0.1:3000" (Some "/w/static/ja/guide/README.md")
     = OpenExternal "http://127.0.0.1:3000/ja/guide".
Proof.
  refine (sibling_urls_differ_in_language UrlRef.parse_host UrlRef.new_URL [] langs3 "static"
            true "https://docs.m5stack.com" "http://127.0.0.1:3000"
            "/w/static/en/guide/README.md"
            {| lang := "en"; relPathWithExt := "guide/README.md";
               relPathNoExt := "guide"; staticDir := "static" |}
            "ja" "/w/static/ja/guide/README.md" eq_refl eq_refl _ _ _).
  - simpl. tauto.
  - split; reflexivity.
  - discriminate.
Defined.

(** ** Opening all other languages *)

Section OpenAll.

Variable source : string.
Variable info : DocInfo.

(** Every effect of the loop is about the sibling of one of the
    languages it was given. *)
Lemma openOthers_targets (others : list Lang) (fs : string -> bool) (answers : list bool)
  (e : effect) (t : string) :
  In e (openOthers source info others fs answers) -> effectTarget e = Some t ->
  exists l, In l others /\ buildTargetFileUri source l info = Some t.
Proof.
  revert fs answers; induction others as [|l rest IH]; intros fs answers Hin Ht;
    [destruct Hin|].
  cbn [openOthers] in Hin.
  destruct (buildTargetFileUri source l info) as [target|] eqn:Hb.
  - assert (Hrest : forall fs' answers',
               In e (openOthers source info rest fs' answers') ->
               exists l', In l' (l :: rest) /\ buildTargetFileUri source l' info = Some t).
    { intros fs' answers' H. destruct (IH fs' answers' H Ht) as (l' & Hl' & Hb').
      exists l'. split; [now right | exact Hb']. }
    assert (Hhere : effectTarget e = Some target ->
               exists l', In l' (l :: rest) /\ buildTargetFileUri source l' info = Some t).
    { intros E. rewrite Ht in E. injection E as ->. exists l. split; [now left | exact Hb]. }
    destruct (fs target); cbn [negb] in Hin.
    + destruct Hin as [<-|Hin]; [now apply Hhere | now apply (Hrest fs answers)].
    + destruct answers as [|[|] more].
      * destruct Hin as [<-|Hin]; [now apply Hhere | now apply (Hrest fs [])].
      * destruct Hin as [<-|[<-|[<-|Hin]]]; try now apply Hhere.
        now apply (Hrest (created fs target) more).
      * destruct Hin as [<-|Hin]; [now apply Hhere | now apply (Hrest fs more)].
  - destruct Hin as [<-|[]]. discriminate Ht.
Qed.


(** When the siblings can be built, every sibling that exists is
    shown, whatever the answers to the prompts for the others. *)
Lemma openOthers_shows_existing (others : list Lang) (fs : string -> bool)
  (answers : list bool) (l : Lang) (t : string) :
  (forall l', In l' others -> buildTargetFileUri source l' info <> None) ->
  In l others -> buildTargetFileUri source l info = Some t -> fs t = true ->
  In (ShowDocument t) (openOthers source info others fs answers).
Proof.
  revert fs answers; induction others as [|l0 rest IH]; intros fs answers Hall Hin Hb Hfs;
    [destruct Hin|].
  cbn [openOthers].
  destruct (buildTargetFileUri source l0 info) as [target|] eqn:Hb0;
    [|exfalso; apply (Hall l0); [now left | exact Hb0]].
  assert (Hall' : forall l', In l' rest -> buildTargetFileUri source l' info <> None).
  { intros l' H. apply Hall. now right. }
  destruct Hin as [->|Hin].
  - rewrite Hb in Hb0. injection Hb0 as <-. rewrite Hfs. cbn [negb]. now left.
  - destruct (fs target) eqn:Hft; cbn [negb].
    + right. now apply IH.
    + destruct answers as [|[|] more].
      * right. now apply IH.
      * right. right. right. apply IH; try assumption.
        unfold created. rewrite Hfs. apply orb_true_r.
      * right. now apply IH.
Qed.

End OpenAll.

Section OpenAllCommand.

Variable languages : list Lang.
Variable sd : string.
Variable readmeAsIndex : bool.

Lemma append_inv_tail (a b c : string) : a ++ c = b ++ c -> a = b.
Proof.
  revert b; induction a as [|x a IH]; intros [|y b] H; cbn [append] in H.
  - reflexivity.
  - apply (f_equal String.length) in H. cbn [String.length] in H.
    rewrite length_append in H. lia.
  - apply (f_equal String.length) in H. cbn [String.length] in H.
    rewrite length_append in H. lia.
  - injection H as -> H. f_equal. now apply IH.
Qed.

(** The siblings of a resolved path can all be built, or none can. *)
Lemma build_all_or_none (p : string) (info : DocInfo) (l : Lang) (t : string) :
  parseDocInfo p languages sd readmeAsIndex = Some info ->
  buildTargetFileUri p l info = Some t ->
  forall l', buildTargetFileUri p l' info <> None.
Proof.
  intros Hp Hb l'.
  destruct (parseDocInfo_inv languages sd readmeAsIndex p info Hp)
    as (pre & rel & Hparts & _ & Hrel & _ & Hr & Hs).
  destruct pre as [|x pre].
  - rewrite (buildTargetFileUri_no_root sd p rel info l Hparts Hrel Hr Hs) in Hb.
    discriminate Hb.
  - now rewrite (buildTargetFileUri_segments sd p (x :: pre) rel info l' Hparts
                   ltac:(discriminate) Hrel Hr Hs).
Qed.

(** The sibling for another language is another path. *)
Lemma sibling_is_another_path (p : string) (info : DocInfo) (l : Lang) (t : string) :
  parseDocInfo p languages sd readmeAsIndex = Some info ->
  buildTargetFileUri p l info = Some t -> l <> lang info -> t <> toPosix p.
Proof.
  intros Hp Hb Hne E.
  destruct (parseDocInfo_inv languages sd readmeAsIndex p info Hp)
    as (pre & rel & Hparts & _ & Hrel & _ & Hr & Hs).
  destruct pre as [|x pre].
  - rewrite (buildTargetFileUri_no_root sd p rel info l Hparts Hrel Hr Hs) in Hb.
    discriminate Hb.
  - assert (Hpre : x :: pre <> []) by discriminate.
    rewrite (buildTargetFileUri_segments sd p _ rel info l Hparts Hpre Hrel Hr Hs) in Hb.
    rewrite (path_of_segments sd p _ rel (lang info) Hparts Hpre Hrel) in E.
    assert (Et : Js.join "/" (x :: pre) ++ "/" ++ sd ++ "/" ++ l ++ "/" ++ Js.join "/" rel
                 = Js.join "/" (x :: pre) ++ "/" ++ sd ++ "/" ++ lang info ++ "/"
                   ++ Js.join "/" rel) by congruence.
    do 4 apply append_inv_head in Et.
    apply append_inv_tail in Et. now apply Hne.
Qed.

End OpenAllCommand.

(** X16.  [m5docs.openAllLanguages] only touches siblings.  Every
    prompt, file creation and document shown is about the sibling of
    the source for a configured language other than its own, and never
    about the source file itself. *)
Theorem openAllLanguages_touches_only_siblings
  (languages : list Lang) (sd : string) (readmeAsIndex : bool)
  (fs : string -> bool) (answers : list bool) (p : string) (info : DocInfo)
  (e : effect) (t : string) :
  parseDocInfo p languages sd readmeAsIndex = Some info ->
  In e (openAllLanguages languages sd readmeAsIndex fs answers (Some p)) ->
  effectTarget e = Some t ->
  (exists l, In l languages /\ l <> lang info /\ buildTargetFileUri p l info = Some t)
  /\ t <> toPosix p.
Proof.
  intros Hp Hin Ht. unfold openAllLanguages in Hin. rewrite Hp in Hin. cbv zeta in Hin.
  destruct (openOthers_targets p info _ fs answers e t Hin Ht) as (l & Hl & Hb).
  apply filter_In in Hl as (Hl & Hne).
  assert (Hne' : l <> lang info).
  { intros E. rewrite E, String.eqb_refl in Hne. discriminate Hne. }
  split; [now exists l|].
  exact (sibling_is_another_path languages sd readmeAsIndex p info l t Hp Hb Hne').
Qed.

Lemma openAllLanguages_touches_only_siblings_witness :
  (exists l, In l langs3 /\ l <> "en"
             /\ buildTargetFileUri "/w/static/en/a.md" l
                  {| lang := "en"; relPathWithExt := "a.md"; relPathNoExt := "a";
                     staticDir := "static" |} = Some "/w/static/ja/a.md")
  /\ "/w/static/ja/a.md" <> toPosix "/w/static/en/a.md".
Proof.
  refine (openAllLanguages_touches_only_siblings langs3 "static" true
            (fun q => String.eqb q "/w/static/zh_CN/a.md") [true]
            "/w/static/en/a.md"
            {| lang := "en"; relPathWithExt := "a.md"; relPathNoExt := "a";
               staticDir := "static" |}
            (CreateFile "/w/static/ja/a.md") "/w/static/ja/a.md" eq_refl _ eq_refl).
  simpl. tauto.
Defined.



(** X18.  Declining does not stop the command.  When the source
    resolves and a sibling can be built, every existing sibling of a
    configured language other than the source's is shown, whatever the
    user answers to the prompts for the missing ones. *)
Theorem openAllLanguages_shows_existing_siblings
  (languages : list Lang) (sd : string) (readmeAsIndex : bool)
  (fs : string -> bool) (answers : list bool) (p : string) (info : DocInfo)
  (l : Lang) (t : string) :
  parseDocInfo p languages sd readmeAsIndex = Some info ->
  In l languages -> l <> lang info ->
  buildTargetFileUri p l info = Some t -> fs t = true ->
  In (ShowDocument t) (openAllLanguages languages sd readmeAsIndex fs answers (Some p)).
Proof.
  intros Hp Hin Hne Hb Hfs. unfold openAllLanguages. rewrite Hp. cbv zeta.
  apply (openOthers_shows_existing p info _ fs answers l t); try assumption.
  - intros l' _. exact (build_all_or_none languages sd readmeAsIndex p info l t Hp Hb l').
  - apply filter_In. split; [exact Hin|].
    apply String.eqb_neq in Hne. now rewrite Hne.
Qed.

Lemma openAllLanguages_shows_existing_siblings_witness :
  In (ShowDocument "/w/static/zh_CN/a.md")
     (openAllLanguages ["ja"; "en"; "zh_CN"] "static" true
        (fun q => String.eqb q "/w/static/zh_CN/a.md") [false]
        (Some "/w/static/en/a.md")).
Proof.
  refine (openAllLanguages_shows_existing_siblings ["ja"; "en"; "zh_CN"] "static" true
            (fun q => String.eqb q "/w/static/zh_CN/a.md") [false] "/w/static/en/a.md"
            {| lang := "en"; relPathWithExt := "a.md"; relPathNoExt := "a";
               staticDir := "static" |}
            "zh_CN" "/w/static/zh_CN/a.md" eq_refl _ _ eq_refl eq_refl).
  - simpl. tauto.
  - discriminate.
Defined.

(** ** Filling the creation template *)

Example template_default :
  templateContent "# ${BASENAME} > ${BASENAME}." "get-started" = "# get-started > get-started.".
Proof. reflexivity. Qed.

Example template_dollar_patterns :
  templateContent "a ${BASENAME} b" "[$$|$&|$`|$'|$1]" = "a [$|${BASENAME}|a | b|$1] b".
Proof. reflexivity. Qed.

Section Template.

Variable baseName : string.

Lemma getSubstitution_plain (matched before after : string) (r : string) :
  has_char "$" r = false -> getSubstitution matched before after r = r.
Proof.
  induction r as [|c r IH]; [reflexivity|].
  cbn [has_char getSubstitution]. intros H.
  apply orb_false_elim in H as [Hc Hr]. now rewrite Hc, IH.
Qed.

(** Text without dollar sign is copied. *)
Lemma replaceFrom_plain (before s : string) :
  has_char "$" s = false -> replaceFrom baseName 0 before s = s.
Proof.
  revert before; induction s as [|c s IH]; intros before H; [reflexivity|].
  cbn [has_char] in H. apply orb_false_elim in H as [Hc Hs].
  cbn [replaceFrom].
  assert (Hp : prefix placeholder (String c s) = false).
  { cbn [placeholder prefix]. destruct (ascii_dec "$" c) as [<-|_]; [discriminate Hc|].
    reflexivity. }
  now rewrite Hp, IH.
Qed.

(** Passing over the rest of a match. *)
Lemma replaceFrom_skip (k : nat) (before m s : string) :
  String.length m = k ->
  exists before', replaceFrom baseName k before (m ++ s) = replaceFrom baseName 0 before' s.
Proof.
  revert before m; induction k as [|k IH]; intros before m Hm.
  - destruct m; [|discriminate Hm]. now exists before.
  - destruct m as [|c m]; [discriminate Hm|]. injection Hm as Hm.
    cbn [append replaceFrom]. exact (IH _ m Hm).
Qed.

(** When the expansion of the base name does not look at the text
    around the match, neither does the scan. *)
Lemma replaceFrom_before (k : nat) (b1 b2 s : string) :
  (forall b a b' a', getSubstitution placeholder b a baseName
                     = getSubstitution placeholder b' a' baseName) ->
  replaceFrom baseName k b1 s = replaceFrom baseName k b2 s.
Proof.
  intros Hind. revert k b1 b2; induction s as [|c s IH]; intros k b1 b2; [reflexivity|].
  cbn [replaceFrom]. destruct k as [|k]; [|apply IH].
  rewrite (Hind b1 _ b2 (substring (String.length placeholder)
                           (String.length (String c s)) (String c s))).
  destruct (prefix placeholder (String c s)); f_equal; apply IH.
Qed.

Lemma substring_from_long (x s : string) (m : nat) :
  (String.length s <= m)%nat -> substring (String.length x) m (x ++ s) = s.
Proof.
  intros Hm. induction x as [|c x IH]; cbn [String.length append substring]; [|exact IH].
  revert m Hm; induction s as [|d s IHs]; intros [|m] Hm; cbn [substring String.length] in *;
    try reflexivity; try lia.
  f_equal. apply IHs. lia.
Qed.

(** The scan up to and including the first placeholder, when the text
    before it has no dollar sign. *)
Lemma replaceFrom_first_placeholder (text rest before : string) :
  has_char "$" text = false ->
  exists before',
    replaceFrom baseName 0 before (text ++ placeholder ++ rest)
    = text ++ getSubstitution placeholder before' rest baseName
      ++ replaceFrom baseName 0 (before' ++ placeholder) rest.
Proof.
  revert before; induction text as [|c text IH]; intros before Ht.
  - exists before. cbn [append].
    change (placeholder ++ rest) with (String "$" ("{BASENAME}" ++ rest)) at 1.
    cbn [replaceFrom].
    change (String "$" ("{BASENAME}" ++ rest)) with (placeholder ++ rest).
    rewrite prefix_append.
    rewrite (substring_from_long placeholder rest)
      by (rewrite length_append; lia).
    f_equal. cbn [placeholder String.length Nat.sub append replaceFrom].
    now rewrite !append_assoc.
  - cbn [has_char] in Ht. apply orb_false_elim in Ht as [Hc Ht'].
    destruct (IH (before ++ String c "") Ht') as (before' & E).
    exists before'. cbn [append replaceFrom].
    assert (Hp : prefix placeholder (String c (text ++ placeholder ++ rest)) = false).
    { cbn [placeholder prefix]. destruct (ascii_dec "$" c) as [<-|_]; [discriminate Hc|].
      reflexivity. }
    now rewrite Hp, E.
Qed.

End Template.

(** X19.  The content written for a new file.  For a base name
    without dollar sign, template text without dollar sign is copied,
    each placeholder after such text becomes the base name, and the
    rest is filled in the same way.  A base name is a replacement
    string, though: for the base name [$&] every placeholder is
    replaced by itself, so the placeholder stays in the file. *)
Theorem templateContent_fills
  (baseName text rest : string) :
  has_char "$" text = false ->
  (has_char "$" baseName = false ->
   templateContent text baseName = text
   /\ templateContent (text ++ placeholder ++ rest) baseName
      = text ++ baseName ++ templateContent rest baseName)
  /\ templateContent (text ++ placeholder ++ rest) "$&"
     = text ++ placeholder ++ templateContent rest "$&".
Proof.
  intros Ht. split.
  - intros Hb. split; [now apply replaceFrom_plain|].
    unfold templateContent.
    destruct (replaceFrom_first_placeholder baseName text rest "" Ht) as (before' & ->).
    rewrite (getSubstitution_plain _ _ _ _ Hb). do 2 f_equal.
    apply replaceFrom_before. intros b a b' a'.
    now rewrite !(getSubstitution_plain _ _ _ _ Hb).
  - unfold templateContent.
    destruct (replaceFrom_first_placeholder "$&" text rest "" Ht) as (before' & ->).
    cbn [getSubstitution Ascii.eqb Bool.eqb]. rewrite append_nil_r. do 2 f_equal.
    now apply replaceFrom_before.
Qed.

Lemma templateContent_fills_witness :
  (has_char "$" "intro" = false ->
   templateContent "# " "intro" = "# "
   /\ templateContent ("# " ++ placeholder ++ " is ${BASENAME}") "intro"
      = "# " ++ "intro" ++ templateContent " is ${BASENAME}" "intro")
  /\ templateContent ("# " ++ placeholder ++ " is ${BASENAME}") "$&"
     = "# " ++ placeholder ++ templateContent " is ${BASENAME}" "$&".
Proof.
  exact (templateContent_fills "intro" "# " " is ${BASENAME}" eq_refl).
Defined.
